(** * Zipper: a Telegram file-compression bot

    A shallow embedding of the bot's Python sources and the properties of
    its task-lifecycle and progress-reporting core.

    - [Config]    config.py: the constants the other modules import.
    - [PyFloat]   the binary64 arithmetic behind
                  [int((processed / total) * 100)].
    - [OsPath]    the three [os.path] functions the sources call.
    - [ZipUtils]  zip-utils.py: [CompressionTask] and [compress_file].
    - [Messages]  strings.py: the [MESSAGES] table and [get_message].
    - [Handlers]  handlers.py: the coroutines [cmd_start], [cmd_help],
                  [cmd_cancel], [handle_document] and [compress_callback],
                  each followed one turn at a time, from one [await] to
                  the next.

    Conventions.  Python [int] is [Z]; [bytes] is [list byte]; [str] is
    [string] (its UTF-8 bytes); a [dict] is a [gmap] or, where it has a
    fixed set of optional keys, a record of options.  A Python call that
    can raise returns a [result]. *)

From Stdlib Require Import ZArith List Lia Bool Ascii Sorting.Sorted.
From Stdlib Require Import Strings.Byte.
From stdpp Require Import gmap strings list pretty.
Import ListNotations.

Open Scope Z_scope.

(** ** Exceptions and results *)

(** The exception classes the sources raise or catch.  [CancelledError]
    derives from [BaseException] (Python 3.8 and later), every other one
    from [Exception]. [OtherError] stands for an exception of a library
    the sources call (the chat platform, the archive writers). *)
Inductive exn :=
| CancelledError
| IndexError
| KeyError
| ValueError
| OSError
| OtherError.

Definition exn_eqb (a b : exn) : bool :=
  match a, b with
  | CancelledError, CancelledError | IndexError, IndexError
  | KeyError, KeyError | ValueError, ValueError | OSError, OSError
  | OtherError, OtherError => true
  | _, _ => false
  end.

(** [isinstance(e, Exception)]. *)
Definition is_Exception (e : exn) : bool := negb (exn_eqb e CancelledError).

Inductive result (A : Type) :=
| Ok (a : A)
| Raise (e : exn).
Arguments Ok {A} a.
Arguments Raise {A} e.

(** ** config.py *)

Module Config.

Definition MAX_CONCURRENT_TASKS : Z := 5.

Definition TEMP_DIR : string := "temp_files".

Definition CHUNK_SIZE : Z := 10 * 1024 * 1024.

(** A dict literal, in source order. *)
Definition COMPRESSION_FORMATS : list (string * string) :=
  [("zip", ".zip"); ("tar.gz", ".tar.gz"); ("rar", ".rar"); ("7z", ".7z")].

Definition MAX_PREVIEW_SIZE : Z := 1 * 1024 * 1024.

Definition FILE_STORAGE_TIME : Z := 24.

End Config.

(** [d[k]] on a dict literal held as an association list. *)
Fixpoint dict_get {V : Type} (d : list (string * V)) (k : string) : result V :=
  match d with
  | [] => Raise KeyError
  | (k', v) :: d' => if String.eqb k k' then Ok v else dict_get d' k
  end.

(** ** Python floats

    Python's [float] is IEEE 754 binary64.  The sources use it in one
    expression, [int((processed_size / total_size) * 100)], on
    non-negative operands, so a float is held here as a non-negative
    dyadic number [mant * 2 ^ expo].  Each operation rounds to 53
    significant bits, ties to even, as the hardware does.  The exponent is
    not bounded: overflow and gradual underflow need a quotient outside
    [2^-1022, 2^1024), which no pair of file sizes produces. *)

Module PyFloat.

Record float := { mant : Z; expo : Z }.

(** [n / d] rounded to the nearest integer, ties to even. *)
Definition round_half_even (n d : Z) : Z :=
  let q := n / d in
  let r := n mod d in
  if 2 * r <? d then q
  else if d <? 2 * r then q + 1
  else if Z.even q then q else q + 1.

(** The shift [s] that brings [a / b] into [[2^52, 2^53)]:
    [2^52 <= a / b * 2^s < 2^53]. *)
Definition quotient_shift (a b : Z) : Z :=
  let s0 := 52 + Z.log2 b - Z.log2 a in
  if 2 ^ 52 * b * 2 ^ Z.max (- s0) 0 <=? a * 2 ^ Z.max s0 0 then s0 else s0 + 1.

(** [a / b] on two ints: the correctly rounded quotient. *)
Definition true_div (a b : Z) : float :=
  if a =? 0 then {| mant := 0; expo := 0 |}
  else
    let s := quotient_shift a b in
    {| mant := round_half_even (a * 2 ^ Z.max s 0) (b * 2 ^ Z.max (- s) 0);
       expo := - s |}.

(** The exact value [m * 2^e] rounded to 53 bits. *)
Definition round53 (m e : Z) : float :=
  let k := Z.log2 m - 52 in
  if k <=? 0 then {| mant := m; expo := e |}
  else {| mant := round_half_even m (2 ^ k); expo := e + k |}.

(** [float(z)]. *)
Definition of_int (z : Z) : float := round53 z 0.

(** [x * y]. *)
Definition fmul (x y : float) : float :=
  round53 (mant x * mant y) (expo x + expo y).

(** [int(x)]: truncation. *)
Definition to_int (x : float) : Z :=
  if 0 <=? expo x then mant x * 2 ^ expo x else mant x / 2 ^ (- expo x).

(** The integer [round53 m e] stands for, in units of [2^e]. *)
Definition val53 (m : Z) : Z :=
  let k := Z.log2 m - 52 in
  if k <=? 0 then m else round_half_even m (2 ^ k) * 2 ^ k.

(** [int((p / t) * 100)]. *)
Definition percent (p t : Z) : Z := to_int (fmul (true_div p t) (of_int 100)).

Lemma round_half_even_bounds n d :
  0 < d -> n / d <= round_half_even n d <= n / d + 1.
Proof.
  intros Hd. unfold round_half_even.
  destruct (2 * (n mod d) <? d); [lia|].
  destruct (d <? 2 * (n mod d)); [lia|].
  destruct (Z.even (n / d)); lia.
Qed.

Lemma round_half_even_exact q d : 0 < d -> round_half_even (q * d) d = q.
Proof.
  intros Hd. unfold round_half_even.
  rewrite Z.mod_mul, Z.div_mul by lia.
  destruct (Z.ltb_spec (2 * 0) d); lia.
Qed.

Lemma round_half_even_mono n n' d :
  0 < d -> n <= n' -> round_half_even n d <= round_half_even n' d.
Proof.
  intros Hd Hn.
  assert (Hq : n / d <= n' / d) by (apply Z.div_le_mono; lia).
  destruct (Z.eq_dec (n / d) (n' / d)) as [E|NE].
  - assert (Hr : n mod d <= n' mod d).
    { pose proof (Z.div_mod n d ltac:(lia)). pose proof (Z.div_mod n' d ltac:(lia)).
      rewrite E in *. nia. }
    unfold round_half_even. rewrite E.
    destruct (Z.ltb_spec (2 * (n mod d)) d); destruct (Z.ltb_spec (2 * (n' mod d)) d);
      destruct (Z.ltb_spec d (2 * (n mod d))); destruct (Z.ltb_spec d (2 * (n' mod d)));
      destruct (Z.even (n' / d)); lia.
  - pose proof (round_half_even_bounds n d Hd).
    pose proof (round_half_even_bounds n' d Hd). lia.
Qed.

Lemma quotient_shift_spec a b :
  0 < a <= b ->
  52 <= quotient_shift a b /\
  2 ^ 52 * b <= a * 2 ^ quotient_shift a b < 2 ^ 53 * b.
Proof.
  intros [Ha Hab]. unfold quotient_shift.
  pose proof (Z.log2_spec a Ha) as [La Ua].
  pose proof (Z.log2_spec b ltac:(lia)) as [Lb Ub].
  pose proof (Z.log2_le_mono a b Hab) as Hl.
  pose proof (Z.log2_nonneg a) as Hla.
  set (la := Z.log2 a) in *. set (lb := Z.log2 b) in *.
  set (s0 := 52 + lb - la).
  assert (Hs0 : 52 <= s0) by (unfold s0; lia).
  rewrite (Z.max_l s0 0), (Z.max_r (- s0) 0) by lia.
  assert (E : 2 ^ s0 * 2 ^ la = 2 ^ 52 * 2 ^ lb).
  { rewrite <- !Z.pow_add_r by lia. f_equal. unfold s0. lia. }
  assert (Hs1 : 2 ^ (s0 + 1) = 2 * 2 ^ s0).
  { rewrite Z.pow_add_r by lia. lia. }
  assert (Hla1 : 2 ^ Z.succ la = 2 * 2 ^ la) by (rewrite Z.pow_succ_r by lia; lia).
  assert (Hlb1 : 2 ^ Z.succ lb = 2 * 2 ^ lb) by (rewrite Z.pow_succ_r by lia; lia).
  assert (P0 : 0 < 2 ^ s0) by (apply Z.pow_pos_nonneg; lia).
  assert (P1 : 0 < 2 ^ la) by (apply Z.pow_pos_nonneg; lia).
  assert (P2 : 0 < 2 ^ lb) by (apply Z.pow_pos_nonneg; lia).
  change (2 ^ 53) with (2 * 2 ^ 52).
  set (c52 := 2 ^ 52) in *. assert (0 < c52) by (unfold c52; lia).
  rewrite Hla1 in Ua. rewrite Hlb1 in Ub. clear Hla1 Hlb1.
  rewrite Z.pow_0_r, Z.mul_1_r.
  destruct (Z.leb_spec (c52 * b) (a * 2 ^ s0)).
  - remember (2 ^ s0) as S0. remember (2 ^ la) as A. remember (2 ^ lb) as B.
    split; [lia|]. split; [lia|]. nia.
  - rewrite Hs1.
    remember (2 ^ s0) as S0. remember (2 ^ la) as A. remember (2 ^ lb) as B.
    split; [lia|]. split; nia.
Qed.

Lemma quotient_shift_antimono a a' b :
  0 < a <= a' -> a' <= b -> quotient_shift a' b <= quotient_shift a b.
Proof.
  intros Ha Hb.
  destruct (quotient_shift_spec a b ltac:(lia)) as (Hs & L & U).
  destruct (quotient_shift_spec a' b ltac:(lia)) as (Hs' & L' & U').
  set (s := quotient_shift a b) in *. set (s' := quotient_shift a' b) in *.
  destruct (Z_le_gt_dec s' s) as [|Hgt]; [assumption|exfalso].
  assert (E : 2 ^ s' = 2 ^ (s' - s - 1) * (2 * 2 ^ s)).
  { replace (2 * 2 ^ s) with (2 ^ (s + 1)) by (rewrite Z.pow_add_r by lia; lia).
    rewrite <- Z.pow_add_r by lia. f_equal. lia. }
  assert (P : 0 < 2 ^ (s' - s - 1)) by (apply Z.pow_pos_nonneg; lia).
  assert (P2 : 0 < 2 ^ s) by (apply Z.pow_pos_nonneg; lia).
  rewrite E in U'. change (2 ^ 53) with (2 * 2 ^ 52) in *.
  remember (2 ^ (s' - s - 1)) as K. remember (2 ^ s) as S0. remember (2 ^ 52) as c52.
  assert (0 < c52) by (subst c52; lia).
  assert (a' * (K * (2 * S0)) >= a * (2 * S0)) by nia.
  nia.
Qed.

Lemma val53_mono m m' : 0 <= m <= m' -> val53 m <= val53 m'.
Proof.
  intros [H0 Hm]. unfold val53.
  pose proof (Z.log2_le_mono m m' Hm) as Hl.
  destruct (Z.leb_spec (Z.log2 m' - 52) 0) as [K'|K'].
  - destruct (Z.leb_spec (Z.log2 m - 52) 0); lia.
  - assert (Hm' : 0 < m') by (destruct (Z_lt_le_dec 0 m') as [|Hz]; [assumption|];
      assert (m' = 0) by lia; subst; simpl in K'; lia).
    pose proof (Z.log2_spec m' Hm') as [L' U'].
    set (k' := Z.log2 m' - 52) in *.
    assert (P' : 0 < 2 ^ k') by (apply Z.pow_pos_nonneg; lia).
    assert (E' : 2 ^ Z.log2 m' = 2 ^ 52 * 2 ^ k').
    { rewrite <- Z.pow_add_r by lia. f_equal. unfold k'. lia. }
    assert (Q' : 2 ^ 52 <= round_half_even m' (2 ^ k')).
    { pose proof (round_half_even_bounds m' (2 ^ k') P').
      assert (2 ^ 52 <= m' / 2 ^ k'); [|lia].
      apply Z.div_le_lower_bound; lia. }
    destruct (Z.leb_spec (Z.log2 m - 52) 0) as [K|K].
    + assert (m < 2 ^ 53).
      { destruct (Z.eq_dec m 0) as [->|]; [lia|].
        pose proof (Z.log2_spec m ltac:(lia)) as [_ U].
        eapply Z.lt_le_trans; [exact U|]. apply Z.pow_le_mono_r; lia. }
      assert (2 * 2 ^ 52 <= 2 ^ 52 * 2 ^ k').
      { assert (2 ^ 1 <= 2 ^ k') by (apply Z.pow_le_mono_r; lia). lia. }
      change (2 ^ 53) with (2 * 2 ^ 52) in *. nia.
    + assert (Hm0 : 0 < m) by (destruct (Z_lt_le_dec 0 m) as [|Hz]; [assumption|];
        assert (m = 0) by lia; subst; simpl in K; lia).
      pose proof (Z.log2_spec m Hm0) as [L U].
      set (k := Z.log2 m - 52) in *.
      assert (P : 0 < 2 ^ k) by (apply Z.pow_pos_nonneg; lia).
      destruct (Z.eq_dec k k') as [E|NE].
      * rewrite <- E. apply Z.mul_le_mono_nonneg_r; [lia|].
        apply round_half_even_mono; lia.
      * assert (Hk : k + 1 <= k') by lia.
        assert (Q : round_half_even m (2 ^ k) <= 2 ^ 53).
        { pose proof (round_half_even_bounds m (2 ^ k) P).
          assert (m / 2 ^ k < 2 ^ 53); [|lia].
          apply Z.div_lt_upper_bound; [lia|].
          rewrite Z.mul_comm, <- Z.pow_add_r by lia.
          replace (53 + k) with (Z.succ (Z.log2 m)) by (unfold k; lia). exact U. }
        assert (2 ^ 53 * 2 ^ k <= 2 ^ 52 * 2 ^ k').
        { rewrite <- !Z.pow_add_r by lia. apply Z.pow_le_mono_r; lia. }
        nia.
Qed.

Lemma true_div_shape p t :
  0 < p <= t ->
  let s := quotient_shift p t in
  true_div p t = {| mant := round_half_even (p * 2 ^ s) t; expo := - s |} /\
  52 <= s /\ 2 ^ 52 <= round_half_even (p * 2 ^ s) t <= 2 ^ 53.
Proof.
  intros Hp s. destruct (quotient_shift_spec p t Hp) as (Hs & L & U). fold s in Hs, L, U.
  split; [|split; [assumption|]].
  - unfold true_div. fold s.
    destruct (Z.eqb_spec p 0); [lia|].
    rewrite (Z.max_l s 0), (Z.max_r (- s) 0) by lia.
    rewrite Z.pow_0_r, Z.mul_1_r. reflexivity.
  - pose proof (round_half_even_bounds (p * 2 ^ s) t ltac:(lia)).
    assert (2 ^ 52 <= p * 2 ^ s / t) by (apply Z.div_le_lower_bound; lia).
    assert (p * 2 ^ s / t < 2 ^ 53) by (apply Z.div_lt_upper_bound; lia).
    lia.
Qed.

Lemma to_int_round53 m s :
  2 ^ 52 <= m <= 2 ^ 53 -> 52 <= s ->
  to_int (round53 (m * 100) (- s + 0)) = val53 (m * 100) / 2 ^ s.
Proof.
  intros Hm Hs. unfold round53, val53.
  assert (L1 : 58 <= Z.log2 (m * 100)).
  { change 58 with (Z.log2 (2 ^ 52 * 100)). apply Z.log2_le_mono. lia. }
  assert (L2 : Z.log2 (m * 100) <= 59).
  { change 59 with (Z.log2 (2 ^ 53 * 100)). apply Z.log2_le_mono. lia. }
  set (k := Z.log2 (m * 100) - 52) in *.
  destruct (Z.leb_spec k 0); [lia|].
  unfold to_int; cbn [mant expo].
  destruct (Z.leb_spec 0 (- s + 0 + k)); [lia|].
  replace (- (- s + 0 + k)) with (s - k) by lia.
  replace (2 ^ s) with (2 ^ (s - k) * 2 ^ k)
    by (rewrite <- Z.pow_add_r by lia; f_equal; lia).
  assert (0 < 2 ^ k) by (apply Z.pow_pos_nonneg; lia).
  assert (0 < 2 ^ (s - k)) by (apply Z.pow_pos_nonneg; lia).
  rewrite Z.div_mul_cancel_r by lia. reflexivity.
Qed.

Lemma percent_eq p t :
  0 < p <= t ->
  percent p t =
  val53 (round_half_even (p * 2 ^ quotient_shift p t) t * 100) / 2 ^ quotient_shift p t.
Proof.
  intros Hp. destruct (true_div_shape p t Hp) as (E & Hs & Hm).
  unfold percent. rewrite E. unfold fmul; cbn [mant expo].
  change (of_int 100) with {| mant := 100; expo := 0 |}. cbn [mant expo].
  apply to_int_round53; assumption.
Qed.

(** Rounding is monotone, so the percentage never falls as more bytes are
    processed. *)
Lemma percent_mono p p' t :
  0 < p <= p' -> p' <= t -> percent p t <= percent p' t.
Proof.
  intros Hp Ht.
  rewrite (percent_eq p t), (percent_eq p' t) by lia.
  destruct (true_div_shape p t ltac:(lia)) as (_ & Hs & Hm).
  destruct (true_div_shape p' t ltac:(lia)) as (_ & Hs' & Hm').
  pose proof (quotient_shift_antimono p p' t Hp Ht) as Hss.
  set (s := quotient_shift p t) in *. set (s' := quotient_shift p' t) in *.
  set (m := round_half_even (p * 2 ^ s) t) in *.
  set (m' := round_half_even (p' * 2 ^ s') t) in *.
  assert (P : 0 < 2 ^ s) by (apply Z.pow_pos_nonneg; lia).
  assert (P' : 0 < 2 ^ s') by (apply Z.pow_pos_nonneg; lia).
  destruct (Z.eq_dec s s') as [E|NE].
  - rewrite <- E. apply Z.div_le_mono; [lia|].
    apply val53_mono. split; [lia|].
    apply Z.mul_le_mono_nonneg_r; [lia|].
    unfold m, m'. rewrite <- E. apply round_half_even_mono; [lia|]. nia.
  - assert (Hlt : s' + 1 <= s) by lia.
    assert (U : val53 (m * 100) <= 2 ^ 53 * 100).
    { change (2 ^ 53 * 100) with (val53 (2 ^ 53 * 100)). apply val53_mono. lia. }
    assert (L : 2 ^ 52 * 100 <= val53 (m' * 100)).
    { change (2 ^ 52 * 100) with (val53 (2 ^ 52 * 100)) at 1. apply val53_mono. lia. }
    transitivity (2 ^ 53 * 100 / 2 ^ s); [apply Z.div_le_mono; lia|].
    transitivity (2 ^ 52 * 100 / 2 ^ s'); [|apply Z.div_le_mono; lia].
    transitivity (2 ^ 53 * 100 / 2 ^ (s' + 1)).
    + apply Z.div_le_compat_l; [lia|]. split; [apply Z.pow_pos_nonneg; lia|].
      apply Z.pow_le_mono_r; lia.
    + rewrite Z.pow_add_r by lia. change (2 ^ 53 * 100) with (2 ^ 52 * 100 * 2 ^ 1).
      rewrite Z.div_mul_cancel_r by lia. lia.
Qed.

(** [t / t] is exactly [1.0], and [1.0 * 100] exactly [100.0]. *)
Lemma percent_full t : 0 < t -> percent t t = 100.
Proof.
  intros Ht. rewrite percent_eq by lia.
  assert (E : quotient_shift t t = 52).
  { unfold quotient_shift. replace (52 + Z.log2 t - Z.log2 t) with 52 by lia.
    change (Z.max (- 52) 0) with 0. change (Z.max 52 0) with 52.
    rewrite Z.pow_0_r.
    destruct (Z.leb_spec (2 ^ 52 * t * 1) (t * 2 ^ 52)); lia. }
  rewrite E. rewrite (Z.mul_comm t), round_half_even_exact by lia.
  reflexivity.
Qed.

Lemma percent_nonneg p t : 0 < p <= t -> 0 <= percent p t.
Proof.
  intros Hp. rewrite percent_eq by assumption.
  destruct (true_div_shape p t Hp) as (_ & Hs & Hm).
  apply Z.div_pos; [|apply Z.pow_pos_nonneg; lia].
  change 0 with (val53 0) at 1. apply val53_mono. lia.
Qed.

(** Binary64 is not exact arithmetic: [29 / 100] rounds below [0.29], and
    the product with [100] stays below [29]. *)
Example percent_29_of_100 : percent 29 100 = 28 /\ 29 * 100 / 100 = 29.
Proof. split; reflexivity. Qed.

(** X3.  The percentage [int((processed / total) * 100)] of line 46,
    computed in binary64, lies between 0 and 100 while
    [0 < processed <= total], does not fall when [processed] grows, and is
    exactly 100 once [processed = total]. *)
Theorem percent_monotone_and_exact_at_end p p' t :
  0 < p <= p' -> p' <= t ->
  0 <= percent p t /\ percent p t <= percent p' t /\ percent p' t <= 100 /\
  percent t t = 100.
Proof.
  intros Hp Ht.
  assert (F : percent t t = 100) by (apply percent_full; lia).
  repeat split.
  - apply percent_nonneg. lia.
  - apply percent_mono; assumption.
  - rewrite <- F. apply percent_mono; lia.
  - exact F.
Qed.

Lemma percent_monotone_and_exact_at_end_witness :
  0 <= percent 29 100 /\ percent 29 100 <= percent 57 100 /\ percent 57 100 <= 100 /\
  percent 100 100 = 100.
Proof. apply (percent_monotone_and_exact_at_end 29 57 100); lia. Defined.

(** *** The distance from exact arithmetic *)

(** Rounding moves a quotient by less than one unit. *)
Lemma round_half_even_error n d :
  0 < d -> n - d < round_half_even n d * d <= n + d.
Proof.
  intros Hd. pose proof (round_half_even_bounds n d Hd) as [L U].
  pose proof (Z.div_mod n d ltac:(lia)) as E.
  pose proof (Z.mod_pos_bound n d Hd) as M.
  split; nia.
Qed.

(** Rounding the product with [100] to 53 bits moves it by at most
    [2^7]. *)
Lemma val53_error m :
  2 ^ 52 <= m <= 2 ^ 53 -> m * 100 - 128 < val53 (m * 100) <= m * 100 + 128.
Proof.
  intros Hm. unfold val53.
  assert (L1 : 58 <= Z.log2 (m * 100)).
  { change 58 with (Z.log2 (2 ^ 52 * 100)). apply Z.log2_le_mono. lia. }
  assert (L2 : Z.log2 (m * 100) <= 59).
  { change 59 with (Z.log2 (2 ^ 53 * 100)). apply Z.log2_le_mono. lia. }
  set (k := Z.log2 (m * 100) - 52) in *.
  destruct (Z.leb_spec k 0); [lia|].
  assert (Hk : 0 < 2 ^ k <= 128).
  { split; [apply Z.pow_pos_nonneg; lia|].
    change 128 with (2 ^ 7). apply Z.pow_le_mono_r; lia. }
  pose proof (round_half_even_error (m * 100) (2 ^ k) ltac:(lia)). lia.
Qed.

(** X11.  How far binary64 takes the percentage from exact arithmetic.
    For a file of at most [2^44] bytes (16 TiB), [int((processed / total)
    * 100)] is the exact integer percentage [100 * processed // total]
    whenever [total] does not divide [100 * processed]; when it does, the
    value is the exact quotient or one less. *)
Theorem percent_is_exact_floor_or_one_below p t :
  0 < p <= t -> t <= 2 ^ 44 ->
  100 * p / t - 1 <= percent p t <= 100 * p / t /\
  ((100 * p) mod t <> 0 -> percent p t = 100 * p / t).
Proof.
  intros Hp Ht. rewrite percent_eq by assumption.
  destruct (true_div_shape p t Hp) as (_ & Hs & Hm).
  set (s := quotient_shift p t) in *.
  set (m := round_half_even (p * 2 ^ s) t) in *.
  pose proof (round_half_even_error (p * 2 ^ s) t ltac:(lia)) as Em. fold m in Em.
  pose proof (val53_error m Hm) as Ev.
  set (V := val53 (m * 100)) in *.
  assert (HS : 2 ^ 52 <= 2 ^ s) by (apply Z.pow_le_mono_r; lia).
  set (S := 2 ^ s) in *.
  assert (HS' : 228 * t < S).
  { assert (228 * t <= 228 * 2 ^ 44) by lia.
    assert (228 * 2 ^ 44 < 2 ^ 52) by reflexivity. lia. }
  pose proof (Z.div_mod (100 * p) t ltac:(lia)) as E.
  pose proof (Z.mod_pos_bound (100 * p) t ltac:(lia)) as M.
  set (q := 100 * p / t) in *. set (r := (100 * p) mod t) in *.
  assert (Hq : 0 <= q) by (apply Z.div_pos; lia).
  assert (B : 100 * p * S - 228 * t < V * t <= 100 * p * S + 228 * t) by nia.
  assert (U : V / S <= q).
  { assert (V / S < q + 1); [|lia].
    apply Z.div_lt_upper_bound; [lia|].
    assert (V * t < S * (q + 1) * t); [|nia]. nia. }
  assert (L : q - 1 <= V / S).
  { apply Z.div_le_lower_bound; [lia|].
    assert (S * (q - 1) * t <= V * t); [|nia]. nia. }
  split; [lia|].
  intros Hr. assert (q <= V / S); [|lia].
  apply Z.div_le_lower_bound; [lia|].
  assert (S * q * t <= V * t); [|nia]. nia.
Qed.

Lemma percent_is_exact_floor_or_one_below_witness :
  100 * 29 / 100 - 1 <= percent 29 100 <= 100 * 29 / 100 /\
  ((100 * 29) mod 100 <> 0 -> percent 29 100 = 100 * 29 / 100).
Proof. apply (percent_is_exact_floor_or_one_below 29 100); [lia|reflexivity || lia]. Defined.

End PyFloat.

(** ** os.path (POSIX) *)

Module OsPath.

(** [s.rfind(c)] scanned left to right: [i] is the index of the head of
    [s], [last] the index of the last [c] seen so far. *)
Fixpoint rfind_from (c : ascii) (s : string) (i last : Z) : Z :=
  match s with
  | EmptyString => last
  | String a s' => rfind_from c s' (i + 1) (if Ascii.eqb a c then i else last)
  end.

(** [s.rfind(c)]: the index of the last [c], [-1] when there is none. *)
Definition rfind (c : ascii) (s : string) : Z := rfind_from c s 0 (-1).

(** [s[i:]] and [s[:i]] for [0 <= i]. *)
Definition str_from (i : Z) (s : string) : string :=
  String.substring (Z.to_nat i) (String.length s - Z.to_nat i) s.

Definition str_to (i : Z) (s : string) : string :=
  String.substring 0 (Z.to_nat i) s.

Definition startswith (p s : string) : bool := String.prefix p s.

Definition endswith_sep (s : string) : bool :=
  match String.get (String.length s - 1) s with
  | Some c => Ascii.eqb c "/"
  | None => false
  end.

(** [os.path.basename(p)]: [i = p.rfind('/') + 1; return p[i:]]. *)
Definition basename (p : string) : string := str_from (rfind "/" p + 1) p.

(** Whether a character other than the dot stands in [s]: the loop of
    [splitext] that skips the leading dots of a file name. *)
Fixpoint has_non_dot (s : string) : bool :=
  match s with
  | EmptyString => false
  | String a s' => if Ascii.eqb a "." then has_non_dot s' else true
  end.

(** [os.path.splitext(p)]. *)
Definition splitext (p : string) : string * string :=
  let sepIndex := rfind "/" p in
  let dotIndex := rfind "." p in
  if (sepIndex <? dotIndex)
     && has_non_dot (String.substring (Z.to_nat (sepIndex + 1))
                       (Z.to_nat (dotIndex - (sepIndex + 1))) p)
  then (str_to dotIndex p, str_from dotIndex p)
  else (p, EmptyString).

(** [os.path.join(a, b)]. *)
Definition join (a b : string) : string :=
  if startswith "/" b then b
  else if (String.length a =? 0)%nat || endswith_sep a then String.append a b
  else String.append a (String.append "/" b).

Example basename_nested : basename "temp_files/42/report.tar.gz" = "report.tar.gz".
Proof. reflexivity. Qed.

Example basename_trailing_sep : basename "temp_files/42/" = "".
Proof. reflexivity. Qed.

Example splitext_last_dot : splitext "report.tar.gz" = ("report.tar", ".gz").
Proof. reflexivity. Qed.

Example splitext_leading_dot : splitext ".bashrc" = (".bashrc", "").
Proof. reflexivity. Qed.

Example splitext_no_dot : splitext "Makefile" = ("Makefile", "").
Proof. reflexivity. Qed.

Example join_relative : join "temp_files" "a.zip" = "temp_files/a.zip".
Proof. reflexivity. Qed.

Example join_absolute : join "temp_files" "/etc/passwd" = "/etc/passwd".
Proof. reflexivity. Qed.

Example join_trailing_sep : join "temp_files/" "a.zip" = "temp_files/a.zip".
Proof. reflexivity. Qed.

(** *** Base names and extensions, character by character *)

(** [c in s]. *)
Fixpoint has_char (c : ascii) (s : string) : bool :=
  match s with
  | EmptyString => false
  | String a s' => Ascii.eqb a c || has_char c s'
  end.

Lemma has_char_app c a b : has_char c (String.append a b) = has_char c a || has_char c b.
Proof. induction a as [|x a IH]; simpl; [reflexivity|]. rewrite IH. apply orb_assoc. Qed.

Lemma rfind_from_spec c s : forall i last,
  rfind_from c s i last = if has_char c s then i + rfind_from c s 0 (-1) else last.
Proof.
  induction s as [|a s IH]; intros i last; simpl; [reflexivity|].
  rewrite (IH (i + 1)), (IH (0 + 1)).
  destruct (has_char c s); destruct (Ascii.eqb a c); simpl; lia.
Qed.

Lemma rfind_cons c a s :
  rfind c (String a s) =
  if has_char c s then 1 + rfind c s else if Ascii.eqb a c then 0 else -1.
Proof.
  unfold rfind. simpl. rewrite rfind_from_spec.
  destruct (has_char c s); [lia|reflexivity].
Qed.

Lemma rfind_nonneg c s : has_char c s = true -> 0 <= rfind c s.
Proof.
  induction s as [|a s IH]; [discriminate|]. intros H. rewrite rfind_cons.
  simpl in H. destruct (has_char c s); [specialize (IH eq_refl); lia|].
  rewrite orb_false_r in H. rewrite H. lia.
Qed.

Lemma append_empty_r s : String.append s EmptyString = s.
Proof.
  induction s as [|a s IH]; [reflexivity|].
  change (String a (s +:+ EmptyString) = String a s). now rewrite IH.
Qed.


Lemma append_assoc a b c :
  String.append (String.append a b) c = String.append a (String.append b c).
Proof.
  induction a as [|x a IH]; [reflexivity|].
  change (String x ((a +:+ b) +:+ c) = String x (a +:+ (b +:+ c))). now rewrite IH.
Qed.

Lemma substring_all s : String.substring 0 (String.length s) s = s.
Proof. induction s as [|a s IH]; simpl; [reflexivity|]. now rewrite IH. Qed.

Lemma substring_split s : forall n,
  String.append (String.substring 0 n s) (String.substring n (String.length s - n) s) = s.
Proof.
  induction s as [|a s IH]; intros n; simpl.
  - destruct n; reflexivity.
  - destruct n as [|n]; simpl.
    + now rewrite substring_all.
    + change (String a (String.substring 0 n s) +:+ ?t)
        with (String a (String.substring 0 n s +:+ t)).
      now rewrite IH.
Qed.

(** [basename] by recursion on the path. *)
Lemma basename_cons a s :
  basename (String a s) =
  if has_char "/" s then basename s else if Ascii.eqb a "/" then s else String a s.
Proof.
  unfold basename, str_from. rewrite rfind_cons.
  destruct (has_char "/" s) eqn:H.
  - pose proof (rfind_nonneg _ _ H) as Hr.
    replace (Z.to_nat (1 + rfind "/" s + 1)) with (S (Z.to_nat (rfind "/" s + 1))) by lia.
    reflexivity.
  - destruct (Ascii.eqb a "/").
    + change (Z.to_nat (0 + 1)) with 1%nat. simpl.
      rewrite Nat.sub_0_r. apply substring_all.
    + change (Z.to_nat (-1 + 1)) with 0%nat.
      rewrite Nat.sub_0_r. apply substring_all.
Qed.

Lemma basename_no_sep p : has_char "/" (basename p) = false.
Proof.
  induction p as [|a s IH]; [reflexivity|]. rewrite basename_cons.
  destruct (has_char "/" s) eqn:H; [assumption|].
  destruct (Ascii.eqb a "/") eqn:E; [assumption|]. simpl. now rewrite E, H.
Qed.

Lemma basename_app d b :
  has_char "/" b = false -> basename (String.append d (String "/" b)) = b.
Proof.
  intros Hb. induction d as [|a d IH].
  - change (basename (String "/" b) = b). rewrite basename_cons, Hb. reflexivity.
  - change (basename (String a (d +:+ String "/" b)) = b).
    rewrite basename_cons, has_char_app.
    cbn [has_char Ascii.eqb Bool.eqb orb]. rewrite orb_true_r. exact IH.
Qed.

Lemma splitext_join p : String.append (fst (splitext p)) (snd (splitext p)) = p.
Proof.
  unfold splitext. destruct (_ && _); cbn [fst snd].
  - unfold str_to, str_from. apply substring_split.
  - apply append_empty_r.
Qed.

Lemma join_relative_name b :
  startswith "/" b = false -> join "temp_files" b = String.append "temp_files/" b.
Proof. intros H. unfold join. rewrite H. reflexivity. Qed.

End OsPath.

(** ** The file system

    A path names a regular file with its bytes, an archive a library has
    written (held by its members, in order, duplicates kept), or a
    directory.  The directory [TEMP_DIR] itself is there from the start:
    config.py creates it when it is imported (line 22). *)

Inductive archive_kind := Zip | TarGz | SevenZ.

Definition member : Type := string * list byte.

Inductive node :=
| File (data : list byte)
| Archive (kind : archive_kind) (members : list member)
| Dir.

Abbreviation FS := (gmap string node).

(** [os.path.exists(p)]. *)
Definition path_exists (fs : FS) (p : string) : bool :=
  match fs !! p with Some _ => true | None => false end.

(** [len(b)]. *)
Definition len {A : Type} (l : list A) : Z := Z.of_nat (length l).

(** ** zip-utils.py *)

Module ZipUtils.

Import Config.

(** How a call of the module ends.  [Raised e]: the exception leaves the
    call.  [RaisedInTry e]: the exception is raised inside the [try] of
    line 73, whose [except] and [finally] clauses lie beyond the end of the
    available source; the file system and the progress values are those at
    the raise, and what the clauses make of it is not modelled.
    [Unmodelled] marks inputs outside the embedding: the [rar] branch (an
    external tool, and cut off), an input path that names a directory or an
    archive rather than a file of known bytes, and an archive path that is
    the input path itself. *)
Inductive outcome (A : Type) :=
| Returned (a : A)
| Raised (e : exn)
| RaisedInTry (e : exn)
| Unmodelled.
Arguments Returned {A} a.
Arguments Raised {A} e.
Arguments RaisedInTry {A} e.
Arguments Unmodelled {A}.

(** [class CompressionTask].  [progress_callback] is kept as the flag
    [has_callback]: whether one was passed. *)
Record CompressionTask := {
  file_path : string;
  output_format : string;
  has_callback : bool;
  canceled : bool;
  total_size : Z;
  processed_size : Z
}.


(** [self.processed_size = p]. *)
Definition set_processed (t : CompressionTask) (p : Z) : CompressionTask :=
  {| file_path := file_path t; output_format := output_format t;
     has_callback := has_callback t; canceled := canceled t;
     total_size := total_size t; processed_size := p |}.

(** [CompressionTask.update_progress]: the task after the call and the
    progress values handed to [progress_callback], or the exception. *)
Definition update_progress (t : CompressionTask) (chunk_size : Z)
  : result (CompressionTask * list Z) :=
  if canceled t then Raise CancelledError
  else
    let t' := set_processed t (processed_size t + chunk_size) in
    if (0 <? total_size t') && has_callback t'
    then Ok (t', [Z.min (PyFloat.percent (processed_size t') (total_size t')) 100])
    else Ok (t', []).

(** [f.read(n)] on the bytes left in a file: the chunk. *)
Fixpoint take_z (n : Z) (l : list byte) : list byte :=
  match l with
  | [] => []
  | x :: l' => if n <=? 0 then [] else x :: take_z (n - 1) l'
  end.

(** The bytes left after [f.read(n)]. *)
Fixpoint drop_z (n : Z) (l : list byte) : list byte :=
  match l with
  | [] => []
  | x :: l' => if n <=? 0 then l else drop_z (n - 1) l'
  end.

(** The state of the chunk loop of the [zip] branch: the file system, the
    bytes [f] has not read yet, the members of the open [ZipFile], the
    task, the local [bytes_read] and the progress values reported. *)
Record zip_state := {
  zs_fs : FS;
  zs_rest : list byte;
  zs_members : list member;
  zs_task : CompressionTask;
  zs_bytes_read : Z;
  zs_events : list Z
}.

Inductive loop_exit :=
| Break
| Raising (e : exn)
| OutOfFuel.

(** [while True:] of the [zip] branch (lines 89-106), one iteration per
    unit of fuel.  Opening the chunk file for writing raises
    [IsADirectoryError], an [OSError], when its path names a directory. *)
Fixpoint zip_loop (fuel : nat) (chunk_size : Z) (file_name temp_chunk_path : string)
    (st : zip_state) : zip_state * loop_exit :=
  match fuel with
  | O => (st, OutOfFuel)
  | S fuel' =>
    (* chunk = await f.read(chunk_size) *)
    let chunk := take_z chunk_size (zs_rest st) in
    match chunk with
    | [] => (st, Break)
    | _ :: _ =>
      (* async with aiofiles.open(temp_chunk_path, 'wb') as temp_f *)
      match zs_fs st !! temp_chunk_path with
      | Some Dir =>
        ({| zs_fs := zs_fs st; zs_rest := drop_z chunk_size (zs_rest st);
            zs_members := zs_members st; zs_task := zs_task st;
            zs_bytes_read := zs_bytes_read st; zs_events := zs_events st |},
         Raising OSError)
      | _ =>
        (* temp_f.write(chunk) *)
        let fs1 := <[temp_chunk_path := File chunk]> (zs_fs st) in
        (* zipf.write(temp_chunk_path, file_name) *)
        let members1 :=
          match fs1 !! temp_chunk_path with
          | Some (File data) => zs_members st ++ [(file_name, data)]
          | _ => zs_members st
          end in
        let bytes_read := zs_bytes_read st + len chunk in
        match update_progress (zs_task st) (len chunk) with
        | Raise e =>
          ({| zs_fs := fs1; zs_rest := drop_z chunk_size (zs_rest st);
              zs_members := members1; zs_task := zs_task st;
              zs_bytes_read := bytes_read; zs_events := zs_events st |},
           Raising e)
        | Ok (t', evs) =>
          (* await asyncio.sleep(0) *)
          zip_loop fuel' chunk_size file_name temp_chunk_path
            {| zs_fs := fs1; zs_rest := drop_z chunk_size (zs_rest st);
               zs_members := members1; zs_task := t';
               zs_bytes_read := bytes_read; zs_events := zs_events st ++ evs |}
        end
      end
    end
  end.

(** [CompressionTask(file_path, output_format, progress_callback)]:
    [total_size] is [os.path.getsize(file_path)] when the path exists and
    [0] otherwise. *)
Definition new_task (fs : FS) (path fmt : string) (cb : bool) : option CompressionTask :=
  let mk size := {| file_path := path; output_format := fmt; has_callback := cb;
                    canceled := false; total_size := size; processed_size := 0 |} in
  match fs !! path with
  | None => Some (mk 0)
  | Some (File data) => Some (mk (len data))
  | Some _ => None
  end.

(** The archive path for a format's extension:
    [os.path.join(TEMP_DIR, f"{os.path.splitext(file_name)[0]}{ext}")]. *)
Definition archive_path (path ext : string) : string :=
  OsPath.join TEMP_DIR (String.append (fst (OsPath.splitext (OsPath.basename path))) ext).

(** Line 71: [output_path], or the [KeyError] of
    [COMPRESSION_FORMATS[output_format]]. *)
Definition output_path_of (path fmt : string) : result string :=
  match dict_get COMPRESSION_FORMATS fmt with
  | Ok ext => Ok (archive_path path ext)
  | Raise e => Raise e
  end.

(** Line 87: the path of the chunk file. *)
Definition temp_chunk_path_of (path : string) : string :=
  OsPath.join TEMP_DIR (String.append "chunk_" (OsPath.basename path)).

(** The [zip] branch (lines 76-110) entered with task [t].  Opening the
    archive for writing raises [IsADirectoryError], an [OSError], when its
    path names a directory; so does [os.remove] on a chunk path that names
    one. *)
Definition compress_zip (fs : FS) (t : CompressionTask) (path output_path : string)
  : FS * list Z * outcome string :=
  if String.eqb output_path path then (fs, [], Unmodelled)
  else
  (* with zipfile.ZipFile(output_path, 'w', zipfile.ZIP_DEFLATED) as zipf *)
  match fs !! output_path with
  | Some Dir => (fs, [], RaisedInTry OSError)
  | _ =>
    let fs1 := <[output_path := Archive Zip []]> fs in
    let file_name := OsPath.basename path in
    (* file_size = os.path.getsize(file_path); aiofiles.open(file_path, 'rb') *)
    match fs1 !! path with
    | None => (fs1, [], RaisedInTry OSError)
    | Some (File data) =>
      let temp_chunk_path := temp_chunk_path_of path in
      let '(st, ex) :=
        zip_loop (S (length data)) CHUNK_SIZE file_name temp_chunk_path
          {| zs_fs := fs1; zs_rest := data; zs_members := [];
             zs_task := t; zs_bytes_read := 0; zs_events := [] |} in
      match ex with
      | Break =>
        (* if os.path.exists(temp_chunk_path): os.remove(temp_chunk_path) *)
        match zs_fs st !! temp_chunk_path with
        | Some Dir =>
          (<[output_path := Archive Zip (zs_members st)]> (zs_fs st), zs_events st,
           RaisedInTry OSError)
        | Some _ =>
          (<[output_path := Archive Zip (zs_members st)]>
             (delete temp_chunk_path (zs_fs st)), zs_events st,
           Returned output_path)
        | None =>
          (<[output_path := Archive Zip (zs_members st)]> (zs_fs st), zs_events st,
           Returned output_path)
        end
      | Raising e =>
        (<[output_path := Archive Zip (zs_members st)]> (zs_fs st), zs_events st,
         RaisedInTry e)
      | OutOfFuel => (zs_fs st, zs_events st, Unmodelled)
      end
    | Some _ => (fs1, [], Unmodelled)
    end
  end.

(** The [tar.gz] and [7z] branches (lines 112-127): one call of the
    archive library, then one progress report for the whole file.  Opening
    the archive for writing raises [IsADirectoryError] when its path names
    a directory. *)
Definition compress_whole (kind : archive_kind) (fs : FS) (t : CompressionTask)
    (path output_path : string) : FS * list Z * outcome string :=
  if String.eqb output_path path then (fs, [], Unmodelled)
  else
  match fs !! output_path with
  | Some Dir => (fs, [], RaisedInTry OSError)
  | _ =>
    let fs1 := <[output_path := Archive kind []]> fs in
    match fs1 !! path with
    | None => (fs1, [], RaisedInTry OSError)
    | Some (File data) =>
      let fs2 := <[output_path := Archive kind [(OsPath.basename path, data)]]> fs1 in
      match update_progress t (total_size t) with
      | Raise e => (fs2, [], RaisedInTry e)
      | Ok (_, evs) => (fs2, evs, Returned output_path)
      end
    | Some _ => (fs1, [], Unmodelled)
    end
  end.

(** The body of [compress_file] after line 69, for the task [t] that line
    built.  [COMPRESSION_FORMATS[output_format]] of line 71 stands before
    the [try]: its [KeyError] leaves the call.  The sources stop inside the
    [rar] branch: the handlers of the outer [try] and the final [return]
    are not among them.  The function is taken to return [output_path]
    when no branch raises, as its docstring says and as the caller uses
    the result (handlers.py, line 211); a call in which a branch raises
    ends as [RaisedInTry]. *)
Definition compress_with (fs : FS) (t : CompressionTask) (path fmt : string)
  : FS * list Z * outcome string :=
  match output_path_of path fmt with
  | Raise e => (fs, [], Raised e)
  | Ok output_path =>
    if String.eqb fmt "zip" then compress_zip fs t path output_path
    else if String.eqb fmt "tar.gz" then compress_whole TarGz fs t path output_path
    else if String.eqb fmt "7z" then compress_whole SevenZ fs t path output_path
    else (fs, [], Unmodelled)
  end.

(** [compress_file(file_path, output_format, progress_callback)]: the file
    system afterwards, the progress values handed to the callback in
    order, and how the call ends. *)
Definition compress_file (fs : FS) (path fmt : string) (cb : bool)
  : FS * list Z * outcome string :=
  match new_task fs path fmt cb with
  | None => (fs, [], Unmodelled)
  | Some t => compress_with fs t path fmt
  end.

(** *** Extraction *)

Inductive extract_result :=
| Extracted (paths : list string)
| InvalidArchive
| UnsafeArchive.

(** The components of a path, split at ["/"]; [cur] is the component
    being read. *)
Fixpoint split_path (s cur : string) : list string :=
  match s with
  | EmptyString => [cur]
  | String c s' =>
    if Ascii.eqb c "/" then cur :: split_path s' EmptyString
    else split_path s' (String.append cur (String c EmptyString))
  end.

(** Whether a relative path climbs above the directory it starts in, which
    is [depth] levels below the root of the extraction. *)
Fixpoint climbs_out (depth : Z) (components : list string) : bool :=
  match components with
  | [] => false
  | c :: cs =>
    if String.eqb c "" || String.eqb c "." then climbs_out depth cs
    else if String.eqb c ".."
         then (depth =? 0) || climbs_out (depth - 1) cs
         else climbs_out (depth + 1) cs
  end.

(** A member path that resolves outside the destination directory. *)
Definition escapes (name : string) : bool :=
  OsPath.startswith "/" name || climbs_out 0 (split_path name EmptyString).

(** Members are written one at a time, in archive order; [done] counts
    those already written. *)
Fixpoint extract_members (dest : string) (total done : Z) (ms : list member) (fs : FS)
  : FS * list Z * list string :=
  match ms with
  | [] => (fs, [], [])
  | (name, data) :: ms' =>
    let p := OsPath.join dest name in
    let '(fs', evs, paths) :=
      extract_members dest total (done + 1) ms' (<[p := File data]> fs) in
    (fs', (done + 1) * 100 / total :: evs, p :: paths)
  end.

(** Modelled from the spec: [extract_archive], which handlers.py imports
    from this module and whose definition lies beyond the end of the
    available source.  Spec 4.3, [extract(inputPath, destDir, onProgress)]:
    the input must be a supported, well-formed archive, else the call fails
    with [InvalidArchive] and writes nothing; a member path that resolves
    outside [destDir] fails the whole extraction with [UnsafeArchive];
    otherwise the members are extracted one at a time, progress is
    [completedMembers / totalMembers * 100], and the result is the flat
    list of extracted paths. *)
Definition extract_archive (fs : FS) (input dest : string)
  : FS * list Z * extract_result :=
  match fs !! input with
  | Some (Archive _ members) =>
    if existsb (fun m => escapes (fst m)) members then (fs, [], UnsafeArchive)
    else
      let '(fs', evs, paths) := extract_members dest (len members) 0 members fs in
      (fs', evs, Extracted paths)
  | _ => (fs, [], InvalidArchive)
  end.

(** *** The chunks the loop reads, and the progress it reports *)

(** The successive results of [f.read(n)] on a file holding [l]. *)
Fixpoint chunks (fuel : nat) (n : Z) (l : list byte) : list (list byte) :=
  match fuel with
  | O => []
  | S fuel' =>
    match take_z n l with
    | [] => []
    | c => c :: chunks fuel' n (drop_z n l)
    end
  end.

(** The values [update_progress] reports while the chunks [cs] are added
    to [p] processed bytes of [t]. *)
Fixpoint progress_of_chunks (p t : Z) (cs : list (list byte)) : list Z :=
  match cs with
  | [] => []
  | c :: cs' =>
    Z.min (PyFloat.percent (p + len c) t) 100 :: progress_of_chunks (p + len c) t cs'
  end.

(** Whether [update_progress] reports at all. *)
Definition reports (t : CompressionTask) : bool := (0 <? total_size t) && has_callback t.

Lemma len_app {A : Type} (a b : list A) : len (a ++ b) = len a + len b.
Proof. unfold len. rewrite length_app. lia. Qed.

Lemma len_nonneg {A : Type} (a : list A) : 0 <= len a.
Proof. unfold len. lia. Qed.

Lemma take_drop_z n l : take_z n l ++ drop_z n l = l.
Proof.
  revert n. induction l as [|x l IH]; intros n; simpl; [reflexivity|].
  destruct (n <=? 0); simpl; [reflexivity|]. now rewrite IH.
Qed.

Lemma take_z_nil n l : 0 < n -> take_z n l = [] -> l = [].
Proof.
  intros Hn. destruct l as [|x l]; simpl; [reflexivity|].
  destruct (Z.leb_spec n 0); [lia|discriminate].
Qed.

Lemma take_z_length n l : 0 <= n -> len (take_z n l) = Z.min n (len l).
Proof.
  unfold len. revert n. induction l as [|x l IH]; intros n Hn; simpl length.
  - simpl. lia.
  - simpl. destruct (Z.leb_spec n 0).
    + simpl. lia.
    + simpl length. rewrite !Nat2Z.inj_succ, IH by lia. lia.
Qed.

Lemma drop_z_length n l : 0 <= n -> len (drop_z n l) = len l - Z.min n (len l).
Proof.
  intros Hn. pose proof (take_z_length n l Hn) as Ht.
  pose proof (f_equal (@length byte) (take_drop_z n l)) as E.
  rewrite length_app in E. unfold len in *. lia.
Qed.


Lemma chunks_cons fuel n l :
  0 < n -> l <> [] ->
  chunks (S fuel) n l = take_z n l :: chunks fuel n (drop_z n l).
Proof.
  intros Hn Hl. simpl. destruct (take_z n l) eqn:E; [|reflexivity].
  apply take_z_nil in E; [contradiction|assumption].
Qed.

Lemma chunks_bounded fuel n l :
  0 < n -> Forall (fun c => 0 < len c <= n) (chunks fuel n l).
Proof.
  intros Hn. revert l. induction fuel as [|fuel IH]; intros l; simpl; [constructor|].
  destruct (take_z n l) eqn:E; [constructor|].
  constructor; [|apply IH].
  rewrite <- E. rewrite take_z_length by lia.
  assert (l <> []) by (intros ->; discriminate).
  assert (0 < len l) by (destruct l; [contradiction|unfold len; simpl length; lia]).
  lia.
Qed.


(** More than one chunk's worth of bytes is read in at least two chunks. *)
Lemma chunks_two fuel n l :
  0 < n -> n < len l -> (length l < fuel)%nat ->
  exists c1 c2 cs, chunks fuel n l = c1 :: c2 :: cs.
Proof.
  intros Hn Hl Hf.
  destruct fuel as [|fuel]; [lia|].
  assert (Hne : l <> []) by (intros ->; unfold len in Hl; simpl in Hl; lia).
  rewrite chunks_cons by assumption.
  assert (Hd : 0 < len (drop_z n l) < len l) by (rewrite drop_z_length; lia).
  destruct fuel as [|fuel]; [unfold len in *; lia|].
  assert (Hne' : drop_z n l <> []).
  { intros E. rewrite E in Hd. unfold len in Hd. simpl in Hd. lia. }
  rewrite chunks_cons by assumption. eauto.
Qed.





(** *** What the chunk loop computes *)

(** No directory stands at [p]: a file can be opened there for writing. *)
Definition writable (fs : FS) (p : string) : Prop := fs !! p <> Some Dir.

Lemma writable_lookup {B : Type} (fs : FS) p (x y : B) :
  writable fs p ->
  match fs !! p with Some Dir => x | _ => y end = y.
Proof. unfold writable. destruct (fs !! p) as [[| |]|]; congruence. Qed.


(** With the flag clear, no directory at the chunk path and fuel for every
    byte the loop ends by [break], having added one member and reported
    once per chunk. *)
Lemma zip_loop_spec fuel cs name tmp st :
  canceled (zs_task st) = false -> 0 < cs -> (length (zs_rest st) < fuel)%nat ->
  writable (zs_fs st) tmp ->
  zip_loop fuel cs name tmp st =
  (let chs := chunks fuel cs (zs_rest st) in
   {| zs_fs := match last chs with
               | Some c => <[tmp := File c]> (zs_fs st)
               | None => zs_fs st
               end;
      zs_rest := [];
      zs_members := zs_members st ++ map (pair name) chs;
      zs_task := set_processed (zs_task st)
                   (processed_size (zs_task st) + len (zs_rest st));
      zs_bytes_read := zs_bytes_read st + len (zs_rest st);
      zs_events := zs_events st ++
                   (if reports (zs_task st)
                    then progress_of_chunks (processed_size (zs_task st))
                           (total_size (zs_task st)) chs
                    else []) |}, Break).
Proof.
  intros Hc Hcs. revert st Hc.
  induction fuel as [|fuel IH]; intros [fs rest mem t br ev] Hc Hf Hw;
    cbn [zs_fs zs_rest zs_members zs_task zs_bytes_read zs_events] in *; [lia|].
  assert (Hw' : forall c, writable (<[tmp := File c]> fs) tmp)
    by (intros c; unfold writable; rewrite lookup_insert_eq; discriminate).
  destruct rest as [|b rest].
  - simpl. rewrite !app_nil_r, !Z.add_0_r. destruct (reports t); rewrite ?app_nil_r;
      destruct t; reflexivity.
  - rewrite chunks_cons by (assumption || discriminate).
    cbn [zip_loop zs_fs zs_rest zs_members zs_task zs_bytes_read zs_events]. cbn zeta.
    assert (Hne : take_z cs (b :: rest) <> []).
    { intros E. apply take_z_nil in E; [discriminate|assumption]. }
    destruct (take_z cs (b :: rest)) as [|c0 c] eqn:Ec; [contradiction|].
    rewrite (writable_lookup fs tmp) by assumption.
    rewrite lookup_insert_eq.
    unfold update_progress. rewrite Hc.
    fold (reports (set_processed t (processed_size t + len (c0 :: c)))).
    assert (Hr : reports (set_processed t (processed_size t + len (c0 :: c))) = reports t)
      by reflexivity.
    rewrite Hr.
    assert (Hd : (length (drop_z cs (b :: rest)) < fuel)%nat).
    { pose proof (drop_z_length cs (b :: rest) ltac:(lia)) as Hl.
      unfold len in Hl. simpl length in *. lia. }
    assert (Hlen : len (c0 :: c) + len (drop_z cs (b :: rest)) = len (b :: rest)).
    { rewrite <- len_app, <- Ec, take_drop_z. reflexivity. }
    destruct (reports t) eqn:Er.
    + rewrite IH by (cbn; auto).
      cbn [zs_fs zs_rest zs_members zs_task zs_bytes_read zs_events
           processed_size total_size].
      rewrite Hr. f_equal. f_equal.
      * rewrite last_cons. destruct (last _); [apply insert_insert_eq|reflexivity].
      * rewrite <- app_assoc. reflexivity.
      * unfold set_processed;
          cbn [file_path output_format has_callback canceled total_size processed_size].
        f_equal. lia.
      * lia.
      * rewrite <- app_assoc. reflexivity.
    + rewrite IH by (cbn; auto).
      cbn [zs_fs zs_rest zs_members zs_task zs_bytes_read zs_events
           processed_size total_size].
      rewrite Hr. f_equal. f_equal.
      * rewrite last_cons. destruct (last _); [apply insert_insert_eq|reflexivity].
      * rewrite <- app_assoc. reflexivity.
      * unfold set_processed;
          cbn [file_path output_format has_callback canceled total_size processed_size].
        f_equal. lia.
      * lia.
      * rewrite !app_nil_r. reflexivity.
Qed.

(** *** What [compress_file] computes *)

(** The archive path of the [zip] format. *)
Definition zip_output (path : string) : string := archive_path path ".zip".

Lemma writable_singleton p q (n : node) : p <> q -> writable ({[ p := n ]} : FS) q.
Proof.
  intros H. unfold writable. rewrite lookup_singleton_ne by assumption. discriminate.
Qed.

Lemma eqb_ne (a b : string) : a <> b -> String.eqb a b = false.
Proof. intros H. now apply String.eqb_neq. Qed.

Lemma compress_file_zip fs path data cb :
  fs !! path = Some (File data) -> zip_output path <> path ->
  writable fs (zip_output path) -> writable fs (temp_chunk_path_of path) ->
  compress_file fs path "zip" cb =
  (let chs := chunks (S (length data)) CHUNK_SIZE data in
   (<[zip_output path := Archive Zip (map (pair (OsPath.basename path)) chs)]>
      (delete (temp_chunk_path_of path) (<[zip_output path := Archive Zip []]> fs)),
    if (0 <? len data) && cb then progress_of_chunks 0 (len data) chs else [],
    Returned (zip_output path))).
Proof.
  intros Hf Hne Hwo Hwc. unfold compress_file, new_task. rewrite Hf.
  unfold compress_with.
  change (output_path_of path "zip") with (Ok (zip_output path)).
  cbn [String.eqb Ascii.eqb Bool.eqb]. cbn match.
  unfold compress_zip. rewrite (eqb_ne _ _ Hne).
  rewrite (writable_lookup fs (zip_output path)) by assumption.
  rewrite lookup_insert_ne by assumption. rewrite Hf.
  assert (Hwc' : writable (<[zip_output path := Archive Zip []]> fs)
                          (temp_chunk_path_of path)).
  { unfold writable in *.
    destruct (decide (zip_output path = temp_chunk_path_of path)) as [E|E].
    - rewrite E, lookup_insert_eq. discriminate.
    - rewrite lookup_insert_ne by assumption. assumption. }
  rewrite zip_loop_spec; cbn [zs_fs zs_rest zs_members zs_task zs_bytes_read zs_events
    canceled]; [|reflexivity|unfold CHUNK_SIZE; lia|lia|assumption].
  cbn zeta.
  unfold reports. cbn [total_size has_callback processed_size app].
  destruct (last (chunks (S (length data)) CHUNK_SIZE data)) as [c|].
  - rewrite lookup_insert_eq, delete_insert_eq. reflexivity.
  - unfold writable in Hwc'.
    destruct (<[zip_output path := Archive Zip []]> fs !! temp_chunk_path_of path)
      as [[| |]|] eqn:E; try reflexivity; try congruence.
    rewrite delete_id by assumption. reflexivity.
Qed.


(** *** The formats *)

Lemma output_path_of_cases path fmt :
  (fmt = "zip" /\ output_path_of path fmt = Ok (zip_output path)) \/
  (fmt = "tar.gz" /\ output_path_of path fmt = Ok (archive_path path ".tar.gz")) \/
  (fmt = "rar" /\ output_path_of path fmt = Ok (archive_path path ".rar")) \/
  (fmt = "7z" /\ output_path_of path fmt = Ok (archive_path path ".7z")) \/
  (output_path_of path fmt = Raise KeyError).
Proof.
  unfold output_path_of, COMPRESSION_FORMATS, dict_get.
  destruct (String.eqb_spec fmt "zip") as [->|]; [auto|].
  destruct (String.eqb_spec fmt "tar.gz") as [->|]; [auto|].
  destruct (String.eqb_spec fmt "rar") as [->|]; [auto 6|].
  destruct (String.eqb_spec fmt "7z") as [->|]; [auto 6|].
  auto 6.
Qed.

(** *** Round trip *)

(** Members that share one name overwrite each other on extraction: the
    file holds the last one. *)
Lemma extract_members_same_name dest total name chs :
  forall done fs,
  fst (fst (extract_members dest total done (map (pair name) chs) fs)) =
  match last chs with
  | Some c => <[OsPath.join dest name := File c]> fs
  | None => fs
  end.
Proof.
  induction chs as [|c chs IH]; intros done fs; [reflexivity|].
  cbn [map extract_members].
  specialize (IH (done + 1) (<[OsPath.join dest name := File c]> fs)).
  destruct (extract_members dest total (done + 1) (map (pair name) chs)
              (<[OsPath.join dest name := File c]> fs)) as [[fs' evs] paths].
  cbn [fst] in *. rewrite IH, last_cons.
  destruct (last chs); [apply insert_insert_eq|reflexivity].
Qed.

Lemma existsb_same_name (f : string -> bool) name (chs : list (list byte)) :
  f name = false -> existsb (fun m : member => f (fst m)) (map (pair name) chs) = false.
Proof. intros Hf. induction chs as [|c chs IH]; [reflexivity|]. cbn. now rewrite Hf, IH. Qed.

(** What extraction leaves at the member's path after a [zip] compression:
    the last chunk the loop read. *)
Lemma zip_then_extract fs path data cb dest :
  fs !! path = Some (File data) -> zip_output path <> path ->
  writable fs (zip_output path) -> writable fs (temp_chunk_path_of path) ->
  escapes (OsPath.basename path) = false ->
  let r := compress_file fs path "zip" cb in
  snd r = Returned (zip_output path) /\
  let x := extract_archive (fst (fst r)) (zip_output path) dest in
  (exists paths, snd x = Extracted paths) /\
  fst (fst x) !! OsPath.join dest (OsPath.basename path) =
  match last (chunks (S (length data)) CHUNK_SIZE data) with
  | Some c => Some (File c)
  | None => fst (fst r) !! OsPath.join dest (OsPath.basename path)
  end.
Proof.
  intros Hf Hne Hwo Hwc Hsafe r. unfold r.
  rewrite (compress_file_zip fs path data cb Hf Hne Hwo Hwc).
  cbn zeta. cbn [fst snd]. split; [reflexivity|].
  unfold extract_archive. rewrite lookup_insert_eq.
  rewrite existsb_same_name by assumption.
  pose proof (extract_members_same_name dest
    (len (map (pair (OsPath.basename path)) (chunks (S (length data)) CHUNK_SIZE data)))
    (OsPath.basename path) (chunks (S (length data)) CHUNK_SIZE data) 0
    (<[zip_output path := Archive Zip
         (map (pair (OsPath.basename path)) (chunks (S (length data)) CHUNK_SIZE data))]>
       (delete (temp_chunk_path_of path) (<[zip_output path := Archive Zip []]> fs)))) as E.
  destruct (extract_members _ _ _ _ _) as [[fs' evs] paths].
  cbn [fst snd] in *. split; [eauto|].
  rewrite E. destruct (last _); [apply lookup_insert_eq|reflexivity].
Qed.

(** C1 (the code departs from the claim).  A file longer than [CHUNK_SIZE]
    is compressed to a [zip] archive and the archive is extracted: the
    file that comes back holds at most [CHUNK_SIZE] bytes, the last chunk
    read, and so differs from the input.  Each chunk is added as a member
    of its own under the same name, and on extraction each overwrites the
    one before.  The archive path is not the input path, and neither it
    nor the chunk path names a directory. *)
Theorem zip_round_trip_keeps_only_last_chunk fs path data cb dest :
  fs !! path = Some (File data) -> zip_output path <> path ->
  writable fs (zip_output path) -> writable fs (temp_chunk_path_of path) ->
  escapes (OsPath.basename path) = false ->
  CHUNK_SIZE < len data ->
  let r := compress_file fs path "zip" cb in
  let x := extract_archive (fst (fst r)) (zip_output path) dest in
  snd r = Returned (zip_output path) /\
  (exists paths, snd x = Extracted paths) /\
  exists c, fst (fst x) !! OsPath.join dest (OsPath.basename path) = Some (File c) /\
            0 < len c <= CHUNK_SIZE /\ c <> data.
Proof.
  intros Hf Hne Hwo Hwc Hsafe Hlen r x.
  destruct (zip_then_extract fs path data cb dest Hf Hne Hwo Hwc Hsafe) as (Hr & Hx & Hl).
  fold r in Hr, Hx, Hl. cbn zeta in Hx, Hl. fold x in Hx, Hl.
  split; [assumption|]. split; [assumption|].
  assert (H0 : 0 < CHUNK_SIZE) by (unfold CHUNK_SIZE; lia).
  destruct (chunks_two (S (length data)) CHUNK_SIZE data H0 Hlen ltac:(lia))
    as (c1 & c2 & cs & Ec).
  pose proof (chunks_bounded (S (length data)) CHUNK_SIZE data H0) as Hb.
  rewrite Ec in Hl, Hb.
  destruct (last (c1 :: c2 :: cs)) as [c|] eqn:El.
  - exists c. split; [assumption|].
    assert (Hin : c ∈ c1 :: c2 :: cs).
    { apply last_Some in El as [l' ->]. apply elem_of_app. right. apply list_elem_of_here. }
    rewrite Forall_forall in Hb. specialize (Hb c Hin).
    split; [assumption|]. intros ->. lia.
  - rewrite last_cons_cons, last_cons in El. destruct (last cs); discriminate.
Qed.

(** One byte more than a chunk: the archive gives back that one byte. *)
Lemma zip_round_trip_keeps_only_last_chunk_witness :
  let data := repeat x00 (Z.to_nat (CHUNK_SIZE + 1)) in
  let fs : FS := {[ "temp_files/7/video.bin" := File data ]} in
  let r := compress_file fs "temp_files/7/video.bin" "zip" true in
  let x := extract_archive (fst (fst r)) (zip_output "temp_files/7/video.bin") "out" in
  snd r = Returned (zip_output "temp_files/7/video.bin") /\
  (exists paths, snd x = Extracted paths) /\
  exists c, fst (fst x) !! OsPath.join "out" (OsPath.basename "temp_files/7/video.bin")
            = Some (File c) /\
            0 < len c <= CHUNK_SIZE /\ c <> data.
Proof.
  intros data fs.
  apply (zip_round_trip_keeps_only_last_chunk fs "temp_files/7/video.bin" data true "out").
  - apply lookup_singleton_eq.
  - vm_compute. discriminate.
  - apply writable_singleton. vm_compute. discriminate.
  - apply writable_singleton. vm_compute. discriminate.
  - vm_compute. reflexivity.
  - unfold len, data. rewrite repeat_length, Z2Nat.id; unfold CHUNK_SIZE; lia.
Defined.

(** *** Cancellation *)




(** *** Progress *)















(** *** Paths *)

(** The paths [compress_file] writes depend on the input path through its
    base name alone. *)
Lemma paths_from_basename p1 p2 fmt :
  OsPath.basename p1 = OsPath.basename p2 ->
  output_path_of p1 fmt = output_path_of p2 fmt /\
  temp_chunk_path_of p1 = temp_chunk_path_of p2.
Proof.
  intros E. unfold output_path_of, archive_path, temp_chunk_path_of. now rewrite E.
Qed.

(** C8 (the code departs from the claim).  Two requesters each upload a
    file named [report.txt]; the uploads lie in their own directories.
    Both compressions write the same archive path and the same chunk file,
    directly under [TEMP_DIR], and after the second the archive holds the
    second requester's bytes. *)
Theorem same_basename_same_paths :
  let p1 := "temp_files/1001/report.txt" in
  let p2 := "temp_files/1002/report.txt" in
  let fs : FS := {[ p1 := File [x61; x61]; p2 := File [x62; x62; x62] ]} in
  let r1 := compress_file fs p1 "zip" true in
  let r2 := compress_file (fst (fst r1)) p2 "zip" true in
  temp_chunk_path_of p1 = "temp_files/chunk_report.txt" /\
  temp_chunk_path_of p2 = "temp_files/chunk_report.txt" /\
  snd r1 = Returned "temp_files/report.zip" /\
  snd r2 = Returned "temp_files/report.zip" /\
  fst (fst r1) !! "temp_files/report.zip" =
    Some (Archive Zip [("report.txt", [x61; x61])]) /\
  fst (fst r2) !! "temp_files/report.zip" =
    Some (Archive Zip [("report.txt", [x62; x62; x62])]).
Proof. vm_compute. repeat split; reflexivity. Qed.

(** *** Inputs of one chunk *)




Import OsPath.

(** *** Where the archive and the chunk file lie *)


Lemma formats_no_sep fmt ext :
  dict_get COMPRESSION_FORMATS fmt = Ok ext ->
  has_char "/" ext = false /\ startswith "/" ext = false.
Proof.
  unfold COMPRESSION_FORMATS, dict_get.
  repeat (destruct (String.eqb fmt _); [intros [= <-]; split; reflexivity|]).
  discriminate.
Qed.

Lemma stem_no_sep path : has_char "/" (fst (splitext (basename path))) = false.
Proof.
  pose proof (basename_no_sep path) as H.
  rewrite <- (splitext_join (basename path)), has_char_app in H.
  now apply orb_false_elim in H as [H _].
Qed.

Lemma startswith_app a b :
  has_char "/" a = false -> startswith "/" b = false ->
  startswith "/" (String.append a b) = false.
Proof.
  intros Ha Hb. destruct a as [|x a]; [exact Hb|].
  destruct (startswith "/" (String x a +:+ b)) eqn:E; [|reflexivity].
  change (String x a +:+ b) with (String x (a +:+ b)) in E.
  unfold startswith in E. cbn [String.prefix] in E.
  destruct (ascii_dec "/" x) as [<-|Hne]; [discriminate Ha|discriminate E].
Qed.

Lemma archive_path_eq path fmt ext :
  dict_get COMPRESSION_FORMATS fmt = Ok ext ->
  archive_path path ext =
  String.append "temp_files/" (String.append (fst (splitext (basename path))) ext).
Proof.
  intros Hf. destruct (formats_no_sep _ _ Hf) as [_ Hs].
  unfold archive_path. apply join_relative_name.
  apply startswith_app; [apply stem_no_sep|assumption].
Qed.

(** The extension [splitext] splits off is empty, or it is the last dot
    of the name with what follows it. *)
Lemma rfind_absent c s : has_char c s = false -> rfind c s = -1.
Proof. intros H. unfold rfind. rewrite rfind_from_spec, H. reflexivity. Qed.

Lemma str_from_rfind c s :
  has_char c s = true ->
  exists e, str_from (rfind c s) s = String c e /\ has_char c e = false.
Proof.
  induction s as [|a s IH]; [discriminate|]. intros H. rewrite rfind_cons.
  destruct (has_char c s) eqn:Hs.
  - destruct (IH eq_refl) as (e & E & He). exists e. split; [|assumption].
    pose proof (rfind_nonneg _ _ Hs) as Hr.
    rewrite <- E. unfold str_from.
    replace (Z.to_nat (1 + rfind c s)) with (S (Z.to_nat (rfind c s))) by lia.
    reflexivity.
  - cbn [has_char] in H. rewrite Hs, orb_false_r in H.
    rewrite H. apply Ascii.eqb_eq in H as ->.
    exists s. split; [|assumption].
    unfold str_from. change (Z.to_nat 0) with 0%nat.
    rewrite Nat.sub_0_r. apply substring_all.
Qed.

Lemma splitext_last_extension p :
  snd (splitext p) = EmptyString \/
  exists e, snd (splitext p) = String "." e /\ has_char "." e = false.
Proof.
  unfold splitext.
  destruct (has_char "." p) eqn:Hd.
  - destruct (_ && _); cbn [snd]; [|auto].
    right. apply str_from_rfind. assumption.
  - rewrite (rfind_absent "." p Hd).
    destruct (has_char "/" p) eqn:Hs.
    + pose proof (rfind_nonneg _ _ Hs) as Hr.
      destruct (Z.ltb_spec (rfind "/" p) (-1)); [lia|]. cbn [andb snd]. auto.
    + rewrite (rfind_absent "/" p Hs). cbn [andb snd]. auto.
Qed.

(** X6.  Whatever directory the input lies in, the archive is written
    directly under [TEMP_DIR]: its path is [temp_files/<stem><ext>], where
    [<stem>] is what [os.path.splitext] leaves of the input's base name,
    the base name without its last extension, and [<ext>] the extension of
    the format; and that is the archive's base name.  The extension
    [splitext] takes off is empty, or the last dot of the base name with
    what follows it. *)
Theorem archive_written_directly_under_temp_dir path fmt out :
  output_path_of path fmt = Ok out ->
  let stem := fst (splitext (basename path)) in
  let old_ext := snd (splitext (basename path)) in
  exists new_ext,
    dict_get COMPRESSION_FORMATS fmt = Ok new_ext /\
    out = String.append "temp_files/" (String.append stem new_ext) /\
    basename out = String.append stem new_ext /\
    String.append stem old_ext = basename path /\
    (old_ext = EmptyString \/
     exists e, old_ext = String "." e /\ has_char "." e = false).
Proof.
  unfold output_path_of. destruct (dict_get COMPRESSION_FORMATS fmt) as [ext|e] eqn:Hf;
    [|discriminate].
  intros [= <-]. cbv zeta. exists ext.
  split; [reflexivity|].
  rewrite (archive_path_eq _ _ _ Hf). split; [reflexivity|].
  split; [|split; [apply splitext_join|apply splitext_last_extension]].
  destruct (formats_no_sep _ _ Hf) as [He _].
  change ("temp_files/" +:+ ?x) with ("temp_files" +:+ String "/" x).
  apply basename_app. rewrite has_char_app, stem_no_sep, He. reflexivity.
Qed.

(** [report.tar.gz] to [zip]: the stem is [report.tar]. *)
Lemma archive_written_directly_under_temp_dir_witness :
  exists new_ext,
    dict_get COMPRESSION_FORMATS "zip" = Ok new_ext /\
    "temp_files/report.tar.zip" =
      String.append "temp_files/" (String.append "report.tar" new_ext) /\
    basename "temp_files/report.tar.zip" = String.append "report.tar" new_ext /\
    String.append "report.tar" ".gz" = basename "temp_files/7/report.tar.gz" /\
    (".gz" = EmptyString \/
     exists e, ".gz" = String "." e /\ has_char "." e = false).
Proof.
  apply (archive_written_directly_under_temp_dir "temp_files/7/report.tar.gz" "zip"
           "temp_files/report.tar.zip").
  reflexivity.
Defined.



(** *** What a call leaves alone *)



(** X8.  A format that is no key of [COMPRESSION_FORMATS] ends the call
    with the [KeyError] of line 71, before the [try] block is entered:
    nothing is written and no progress is reported. *)
Theorem unknown_format_raises_KeyError fs path fmt cb :
  fmt <> "zip" -> fmt <> "tar.gz" -> fmt <> "rar" -> fmt <> "7z" ->
  (fs !! path = None \/ exists data, fs !! path = Some (File data)) ->
  compress_file fs path fmt cb = (fs, [], Raised KeyError).
Proof.
  intros H1 H2 H3 H4 Hp.
  assert (E : output_path_of path fmt = Raise KeyError).
  { destruct (output_path_of_cases path fmt) as [[? _]|[[? _]|[[? _]|[[? _]|E]]]];
      congruence. }
  unfold compress_file, new_task, compress_with.
  destruct Hp as [->|[data ->]]; rewrite E; reflexivity.
Qed.

Lemma unknown_format_raises_KeyError_witness :
  let fs : FS := {[ "temp_files/7/a.txt" := File [x61; x62; x63] ]} in
  compress_file fs "temp_files/7/a.txt" "bz2" true = (fs, [], Raised KeyError).
Proof.
  intros fs.
  apply (unknown_format_raises_KeyError fs "temp_files/7/a.txt" "bz2" true);
    try discriminate.
  right. exists [x61; x62; x63]. apply lookup_singleton_eq.
Defined.

(** *** The number of chunks *)





(** *** When two archives collide *)

(** [s[::-1]]. *)
Fixpoint srev (s : string) : string :=
  match s with
  | EmptyString => EmptyString
  | String c s' => String.append (srev s') (String c EmptyString)
  end.

Lemma srev_app a b : srev (String.append a b) = String.append (srev b) (srev a).
Proof.
  induction a as [|c a IH].
  - change (srev b = srev b +:+ ""). now rewrite append_empty_r.
  - change (srev (a +:+ b) +:+ String c "" = srev b +:+ (srev a +:+ String c "")).
    now rewrite IH, append_assoc.
Qed.

Lemma srev_involutive s : srev (srev s) = s.
Proof.
  induction s as [|c s IH]; [reflexivity|].
  change (srev (srev s +:+ String c "") = String c s).
  rewrite srev_app, IH. reflexivity.
Qed.

Lemma stem_ext_inj f1 f2 e1 e2 s1 s2 :
  dict_get COMPRESSION_FORMATS f1 = Ok e1 -> dict_get COMPRESSION_FORMATS f2 = Ok e2 ->
  String.append s1 e1 = String.append s2 e2 -> f1 = f2 /\ s1 = s2.
Proof.
  intros H1 H2 E. apply (f_equal srev) in E. rewrite !srev_app in E.
  assert (R : srev s1 = srev s2 -> s1 = s2).
  { intros H. rewrite <- (srev_involutive s1), H. apply srev_involutive. }
  remember (srev s1) as r1 eqn:Hr1. remember (srev s2) as r2 eqn:Hr2. clear Hr1 Hr2.
  unfold COMPRESSION_FORMATS, dict_get in H1, H2.
  repeat match type of H1 with
         | (if String.eqb ?a ?b then _ else _) = _ =>
           destruct (String.eqb_spec a b) as [->|?]
         end; try discriminate H1; injection H1 as <-.
  all: repeat match type of H2 with
         | (if String.eqb ?a ?b then _ else _) = _ =>
           destruct (String.eqb_spec a b) as [->|?]
         end; try discriminate H2; injection H2 as <-.
  all: cbv [srev String.append] in E.
  all: try discriminate E.
  all: split; [reflexivity|]; apply R; congruence.
Qed.

(** X10.  Two calls write the same archive path exactly when their
    formats are equal and the base names of their inputs agree up to the
    last extension.  The directories of the inputs play no part. *)
Theorem archives_collide_iff p1 p2 f1 f2 o1 o2 :
  output_path_of p1 f1 = Ok o1 -> output_path_of p2 f2 = Ok o2 ->
  (o1 = o2 <->
   f1 = f2 /\ fst (splitext (basename p1)) = fst (splitext (basename p2))).
Proof.
  unfold output_path_of.
  destruct (dict_get COMPRESSION_FORMATS f1) as [e1|] eqn:H1; [|discriminate].
  destruct (dict_get COMPRESSION_FORMATS f2) as [e2|] eqn:H2; [|discriminate].
  intros [= <-] [= <-].
  rewrite (archive_path_eq _ _ _ H1), (archive_path_eq _ _ _ H2).
  split.
  - intros E.
    assert (E' : fst (splitext (basename p1)) +:+ e1 = fst (splitext (basename p2)) +:+ e2).
    { cbv [String.append] in E. fold String.append in E. congruence. }
    exact (stem_ext_inj _ _ _ _ _ _ H1 H2 E').
  - intros [-> ->]. congruence.
Qed.

Lemma archives_collide_iff_witness :
  "temp_files/report.zip" = "temp_files/report.zip" <->
  "zip" = "zip" /\
  fst (splitext (basename "temp_files/1001/report.txt")) =
  fst (splitext (basename "temp_files/1002/report.pdf")).
Proof.
  apply (archives_collide_iff "temp_files/1001/report.txt" "temp_files/1002/report.pdf"
           "zip" "zip"); reflexivity.
Defined.

End ZipUtils.

(** ** strings.py *)

Module Messages.

(** The table of message templates, by language code and message key. *)
Definition MESSAGES : list (string * list (string * string)) :=
  [   ("en",
    [
     ("start",
      "Welcome to File Compression Bot! 📁

I can help you compress and extract files.

Send me any file to begin, or use /help to see available commands.");
     ("help",
      "📚 *Bot Commands:*

/start - Start the bot
/help - Show this help message
/cancel - Cancel current operation

📋 *How to use:*

1. Send any file to compress it
2. Send a compressed file (.zip, .tar.gz, .rar, .7z) to extract it
3. Use inline buttons to select desired operations

⚙️ *Features:*
• Multiple compression formats
• No file size limits
• Fast processing with streaming
• Progress tracking
");
     ("file_received",
      "File received: {}
Size: {:.2f} MB

What would you like to do with this file?");
     ("processing",
      "Processing your file... Please wait.");
     ("compressing",
      "Compressing your file to {}...

Progress: {}%");
     ("extracting",
      "Extracting your file...

Progress: {}%");
     ("compression_complete",
      "Compression complete! Sending the compressed file...");
     ("extraction_complete",
      "Extraction complete! Sending the extracted file(s)...");
     ("extraction_too_many_files",
      "Extraction complete! There are {} files. Sending them as a compressed archive...");
     ("task_cancelled",
      "Task cancelled successfully.");
     ("no_active_task",
      "No active task to cancel.");
     ("error_unsupported_format",
      "Unsupported file format. Supported formats for extraction: zip, tar.gz, rar, 7z");
     ("error_processing",
      "Error processing your file: {}");
     ("error_file_corrupted",
      "The file appears to be corrupted or invalid.");
     ("error_extraction",
      "Could not extract the file. The file might be password-protected or corrupted.");
     ("error_compression",
      "Could not compress the file: {}");
     ("compress_format_select",
      "Select compression format:");
     ("file_too_large_telegram",
      "The file is too large to be sent via Telegram. I'll split it into smaller parts.");
     ("split_part",
      "Part {}/{} of your extraction");
     ("preview_content",
      "Preview of file content:

```
{}
```");
     ("error_general",
      "An error occurred: {}. Please try again.");
     ("timeout",
      "Operation timed out. Please try with a smaller file.")
    ]);
   ("fa",
    [
     ("start",
      "به ربات فشرده‌سازی فایل خوش آمدید! 📁

من می‌توانم به شما در فشرده‌سازی و استخراج فایل‌ها کمک کنم.

برای شروع، هر فایلی را برای من ارسال کنید یا از /help برای دیدن دستورات موجود استفاده کنید.");
     ("help",
      "📚 *دستورات ربات:*

/start - شروع ربات
/help - نمایش این پیام راهنما
/cancel - لغو عملیات فعلی

📋 *نحوه استفاده:*

1. هر فایلی را برای فشرده‌سازی ارسال کنید
2. یک فایل فشرده (.zip، .tar.gz، .rar، .7z) برای استخراج ارسال کنید
3. از دکمه‌های اینلاین برای انتخاب عملیات مورد نظر استفاده کنید

⚙️ *ویژگی‌ها:*
• فرمت‌های فشرده‌سازی متعدد
• بدون محدودیت در اندازه فایل
• پردازش سریع با استریمینگ
• پیگیری پیشرفت
");
     ("file_received",
      "فایل دریافت شد: {}
اندازه: {:.2f} مگابایت

می‌خواهید با این فایل چه کاری انجام دهید؟");
     ("processing",
      "در حال پردازش فایل شما... لطفاً صبر کنید.");
     ("compressing",
      "در حال فشرده‌سازی فایل شما به {}...

پیشرفت: {}%");
     ("extracting",
      "در حال استخراج فایل شما...

پیشرفت: {}%");
     ("compression_complete",
      "فشرده‌سازی کامل شد! در حال ارسال فایل فشرده...");
     ("extraction_complete",
      "استخراج کامل شد! در حال ارسال فایل(های) استخراج شده...");
     ("extraction_too_many_files",
      "استخراج کامل شد! {} فایل وجود دارد. ارسال آنها به صورت یک آرشیو فشرده...");
     ("task_cancelled",
      "عملیات با موفقیت لغو شد.");
     ("no_active_task",
      "هیچ عملیات فعالی برای لغو وجود ندارد.");
     ("error_unsupported_format",
      "فرمت فایل پشتیبانی نمی‌شود. فرمت‌های پشتیبانی شده برای استخراج: zip، tar.gz، rar، 7z");
     ("error_processing",
      "خطا در پردازش فایل شما: {}");
     ("error_file_corrupted",
      "به نظر می‌رسد فایل خراب یا نامعتبر است.");
     ("error_extraction",
      "استخراج فایل امکان‌پذیر نیست. ممکن است فایل دارای رمز عبور یا خراب باشد.");
     ("error_compression",
      "فشرده‌سازی فایل امکان‌پذیر نیست: {}");
     ("compress_format_select",
      "فرمت فشرده‌سازی را انتخاب کنید:");
     ("file_too_large_telegram",
      "فایل برای ارسال از طریق تلگرام بسیار بزرگ است. آن را به قسمت‌های کوچکتر تقسیم می‌کنم.");
     ("split_part",
      "بخش {}/{} از استخراج شما");
     ("preview_content",
      "پیش‌نمایش محتوای فایل:

```
{}
```");
     ("error_general",
      "خطایی رخ داد: {}. لطفاً دوباره تلاش کنید.");
     ("timeout",
      "زمان عملیات به پایان رسید. لطفاً با فایل کوچکتری امتحان کنید.")
    ])
  ].

(** A value passed to [str.format] by keyword. *)
Inductive pyval :=
| VStr (s : string)
| VInt (z : Z)
| VFloat (f : PyFloat.float).

(** The keyword arguments of a call, in call order. *)
Definition kwargs : Type := list (string * pyval).

(** How [str.format] ends.  [FUnmodelled] marks what the embedding leaves
    out: attribute and index access in a field name ([{a.b}], [{a[0]}]),
    field names with non-ASCII characters (which may be decimal digits of
    another script), the conversions [!r] and [!a], a non-empty format
    specification, and the text of a float. *)
Inductive fmt_result :=
| FOk (s : string)
| FRaise (e : exn)
| FUnmodelled.

Definition snoc (s : string) (c : ascii) : string :=
  String.append s (String c EmptyString).

(** One step of [MarkupIterator_next]: the literal text up to the next
    brace. *)
Inductive literal_scan :=
| LitEnd (literal : string)
| LitEscaped (literal rest : string)
| LitField (literal rest : string)
| LitError.

Fixpoint scan_literal (s acc : string) : literal_scan :=
  match s with
  | EmptyString => LitEnd acc
  | String c s' =>
    if Ascii.eqb c "{" then
      match s' with
      | EmptyString => LitError
      | String c2 s'' =>
        if Ascii.eqb c2 "{" then LitEscaped (snoc acc "{") s'' else LitField acc s'
      end
    else if Ascii.eqb c "}" then
      match s' with
      | EmptyString => LitError
      | String c2 s'' =>
        if Ascii.eqb c2 "}" then LitEscaped (snoc acc "}") s'' else LitError
      end
    else scan_literal s' (snoc acc c)
  end.

(** [parse_field], first loop: the field name runs to the first ["}"],
    [":"] or ["!"] outside square brackets; the result is the name, the
    terminator and the text after it. *)
Fixpoint scan_field_name (s acc : string) (in_brackets : bool)
  : option (string * ascii * string) :=
  match s with
  | EmptyString => None
  | String c s' =>
    if in_brackets then scan_field_name s' (snoc acc c) (negb (Ascii.eqb c "]"))
    else if Ascii.eqb c "{" then None
    else if Ascii.eqb c "[" then
      match s' with
      | EmptyString => None
      | String c2 _ =>
        if Ascii.eqb c2 "]" then scan_field_name s' (snoc acc c) false
        else scan_field_name s' (snoc acc c) true
      end
    else if Ascii.eqb c "}" || Ascii.eqb c ":" || Ascii.eqb c "!"
    then Some (acc, c, s')
    else scan_field_name s' (snoc acc c) false
  end.

(** [parse_field], last loop: the format specification runs to the brace
    that closes the field; [count] is the nesting depth. *)
Fixpoint scan_format_spec (s acc : string) (count : nat) : option (string * string) :=
  match s with
  | EmptyString => None
  | String c s' =>
    if Ascii.eqb c "{" then scan_format_spec s' (snoc acc c) (S count)
    else if Ascii.eqb c "}" then
      match count with
      | 1%nat => Some (acc, s')
      | _ => scan_format_spec s' (snoc acc c) (pred count)
      end
    else scan_format_spec s' (snoc acc c) count
  end.

(** A parsed replacement field. *)
Record field := {
  field_name : string;
  conversion : option ascii;
  format_spec : string
}.

(** [parse_field]: the field that starts after an opening brace, and the
    text after its closing brace; [None] is a [ValueError]. *)
Definition parse_field (s : string) : option (field * string) :=
  match scan_field_name s EmptyString false with
  | None => None
  | Some (name, c, rest) =>
    if Ascii.eqb c "}" then
      Some ({| field_name := name; conversion := None; format_spec := "" |}, rest)
    else if Ascii.eqb c "!" then
      match rest with
      | EmptyString => None
      | String conv rest1 =>
        match rest1 with
        | EmptyString =>
          match scan_format_spec rest1 EmptyString 1 with
          | None => None
          | Some (spec, rest2) =>
            Some ({| field_name := name; conversion := Some conv; format_spec := spec |}, rest2)
          end
        | String c2 rest2 =>
          if Ascii.eqb c2 "}" then
            Some ({| field_name := name; conversion := Some conv; format_spec := "" |}, rest2)
          else if Ascii.eqb c2 ":" then
            match scan_format_spec rest2 EmptyString 1 with
            | None => None
            | Some (spec, rest3) =>
              Some ({| field_name := name; conversion := Some conv; format_spec := spec |},
                    rest3)
            end
          else None
        end
      end
    else
      match scan_format_spec rest EmptyString 1 with
      | None => None
      | Some (spec, rest1) =>
        Some ({| field_name := name; conversion := None; format_spec := spec |}, rest1)
      end
  end.

(** [field_name_split]: the first part of a field name ends at the first
    ["."] or ["["]; the second component tells whether more follows. *)
Fixpoint first_part (s acc : string) : string * bool :=
  match s with
  | EmptyString => (acc, false)
  | String c s' =>
    if Ascii.eqb c "." || Ascii.eqb c "[" then (acc, true)
    else first_part s' (snoc acc c)
  end.

Definition is_digit (c : ascii) : bool :=
  (48 <=? nat_of_ascii c)%nat && (nat_of_ascii c <=? 57)%nat.

Definition is_ascii (c : ascii) : bool := (nat_of_ascii c <? 128)%nat.

Fixpoint string_forall (p : ascii -> bool) (s : string) : bool :=
  match s with
  | EmptyString => true
  | String c s' => p c && string_forall p s'
  end.

(** [get_integer] on a string of decimal digits. *)
Fixpoint digits_value (s : string) (acc : Z) : Z :=
  match s with
  | EmptyString => acc
  | String c s' => digits_value s' (acc * 10 + (Z.of_nat (nat_of_ascii c) - 48))
  end.

Definition PY_SSIZE_T_MAX : Z := 2 ^ 63 - 1.

(** [str(v)]. *)
Definition py_str (v : pyval) : option string :=
  match v with
  | VStr s => Some s
  | VInt z => Some (pretty z)
  | VFloat _ => None
  end.

(** [output_markup] for [str.format] called with keyword arguments only:
    there is no positional argument, so a field that is empty or a number
    indexes an empty tuple. *)
Definition render_field (f : field) (kw : kwargs) : fmt_result :=
  let '(first, more) := first_part (field_name f) EmptyString in
  if negb (string_forall is_ascii first) then FUnmodelled
  else if string_forall is_digit first then
    (* the empty name and the decimal index: [args[index]] on [args = ()] *)
    if PY_SSIZE_T_MAX <? digits_value first 0 then FRaise ValueError
    else FRaise IndexError
  else
    match dict_get kw first with
    | Raise e => FRaise e
    | Ok v =>
      if more then FUnmodelled
      else
        match conversion f with
        | Some c =>
          if Ascii.eqb c "s" then
            if String.eqb (format_spec f) "" then
              match py_str v with Some s => FOk s | None => FUnmodelled end
            else FUnmodelled
          else if Ascii.eqb c "r" || Ascii.eqb c "a" then FUnmodelled
          else FRaise ValueError
        | None =>
          if String.eqb (format_spec f) "" then
            match py_str v with Some s => FOk s | None => FUnmodelled end
          else FUnmodelled
        end
    end.

(** [build_string]: literal text and fields in turn, left to right; an
    error ends the call where it is met.  Each turn consumes a character,
    so [String.length s] turns of fuel reach the end of [s]. *)
Fixpoint build_string (fuel : nat) (s : string) (kw : kwargs) (out : string)
  : fmt_result :=
  match scan_literal s EmptyString with
  | LitError => FRaise ValueError
  | LitEnd lit => FOk (String.append out lit)
  | LitEscaped lit rest =>
    match fuel with
    | O => FUnmodelled
    | S fuel' => build_string fuel' rest kw (String.append out lit)
    end
  | LitField lit rest =>
    match parse_field rest with
    | None => FRaise ValueError
    | Some (f, rest') =>
      match render_field f kw with
      | FOk text =>
        match fuel with
        | O => FUnmodelled
        | S fuel' =>
          build_string fuel' rest' kw (String.append (String.append out lit) text)
        end
      | r => r
      end
    end
  end.

(** [message.format] called with the keyword arguments [kw]. *)
Definition format (message : string) (kw : kwargs) : fmt_result :=
  build_string (String.length message) message kw EmptyString.

(** [get_message(key, lang)] called with the keyword arguments [kw]. *)
Definition get_message (key lang : string) (kw : kwargs) : fmt_result :=
  (* if lang not in MESSAGES: lang = "en" *)
  let lang := match dict_get MESSAGES lang with Ok _ => lang | Raise _ => "en" end in
  (* message = MESSAGES[lang].get(key, key) *)
  let table := match dict_get MESSAGES lang with Ok t => t | Raise _ => [] end in
  let message := match dict_get table key with Ok m => m | Raise _ => key end in
  match kw with
  | [] => FOk message
  | _ :: _ =>
    match format message kw with
    | FRaise KeyError | FRaise ValueError => FOk message
    | r => r
    end
  end.

Arguments get_message : simpl never.

(** *** What [get_message] returns *)

(** Without keyword arguments the call returns the template untouched. *)
Lemma get_message_plain key lang : exists s, get_message key lang [] = FOk s.
Proof. unfold get_message. eauto. Qed.

(** A language that is no key of [MESSAGES] is served in English. *)
Lemma get_message_unknown_lang key lang kw :
  dict_get MESSAGES lang = Raise KeyError ->
  get_message key lang kw = get_message key "en" kw.
Proof. intros E. unfold get_message. rewrite E. reflexivity. Qed.

(** A key that is no message of the language is returned as it is. *)
Lemma get_message_unknown_key key lang table :
  dict_get MESSAGES lang = Ok table -> dict_get table key = Raise KeyError ->
  get_message key lang [] = FOk key.
Proof. intros E1 E2. unfold get_message. rewrite E1. cbv zeta. rewrite E1, E2. reflexivity. Qed.

(** The templates mark their fields with [{}], which [str.format] fills
    from positional arguments; the callers pass keyword arguments only.
    The first field therefore indexes an empty tuple, and the
    [IndexError] is not among the exceptions [get_message] handles. *)
Lemma language_cases lang :
  lang = "en" \/ lang = "fa" \/ dict_get MESSAGES lang = Raise KeyError.
Proof.
  unfold MESSAGES, dict_get.
  destruct (String.eqb_spec lang "en"); [auto|].
  destruct (String.eqb_spec lang "fa"); auto.
Qed.

Ltac positional_template :=
  let lang := fresh "lang" in
  let kw := fresh "kw" in
  let H := fresh "H" in
  let E := fresh "E" in
  intros lang kw H;
  destruct kw as [|? ?]; [contradiction|];
  destruct (language_cases lang) as [->|[->|E]];
    [|
     |rewrite (get_message_unknown_lang _ _ _ E)];
  vm_compute; reflexivity.

Lemma compressing_raises lang kw :
  kw <> [] -> get_message "compressing" lang kw = FRaise IndexError.
Proof. revert lang kw. positional_template. Qed.

Lemma error_compression_raises lang kw :
  kw <> [] -> get_message "error_compression" lang kw = FRaise IndexError.
Proof. revert lang kw. positional_template. Qed.

Lemma error_processing_raises lang kw :
  kw <> [] -> get_message "error_processing" lang kw = FRaise IndexError.
Proof. revert lang kw. positional_template. Qed.

Lemma error_general_raises lang kw :
  kw <> [] -> get_message "error_general" lang kw = FRaise IndexError.
Proof. revert lang kw. positional_template. Qed.

Lemma file_received_raises lang kw :
  kw <> [] -> get_message "file_received" lang kw = FRaise IndexError.
Proof. revert lang kw. positional_template. Qed.

(** C10 (the code departs from the claim).  [get_message] is called as
    [compress_callback] calls it, with the arguments [format] and
    [progress] by keyword: the call raises [IndexError] instead of
    returning a string. *)
Theorem get_message_raises_IndexError :
  get_message "compressing" "en" [("format", VStr "ZIP"); ("progress", VInt 0)]
  = FRaise IndexError.
Proof. vm_compute. reflexivity. Qed.

(** *** Templates with and without fields *)

(** No brace stands in [s]. *)
Fixpoint brace_free (s : string) : bool :=
  match s with
  | EmptyString => true
  | String c s' => negb (Ascii.eqb c "{") && negb (Ascii.eqb c "}") && brace_free s'
  end.

(** The first brace of [s] opens the field [{}]. *)
Fixpoint positional_first (s : string) : bool :=
  match s with
  | EmptyString => false
  | String c s' =>
    if Ascii.eqb c "{" then
      match s' with
      | String c2 _ => Ascii.eqb c2 "}"
      | EmptyString => false
      end
    else if Ascii.eqb c "}" then false
    else positional_first s'
  end.

Lemma snoc_append acc c s : String.append (snoc acc c) s = String.append acc (String c s).
Proof. unfold snoc. rewrite OsPath.append_assoc. reflexivity. Qed.

Lemma scan_literal_brace_free s : forall acc,
  brace_free s = true -> scan_literal s acc = LitEnd (String.append acc s).
Proof.
  induction s as [|c s IH]; intros acc H; cbn [scan_literal].
  - now rewrite OsPath.append_empty_r.
  - cbn [brace_free] in H. apply andb_prop in H as [H Hs]. apply andb_prop in H as [H1 H2].
    apply negb_true_iff in H1, H2. rewrite H1, H2, IH by assumption.
    now rewrite snoc_append.
Qed.

Lemma scan_literal_positional s : forall acc,
  positional_first s = true ->
  exists lit rest, scan_literal s acc = LitField lit (String "}" rest).
Proof.
  induction s as [|c s IH]; intros acc H; [discriminate|].
  cbn [scan_literal positional_first] in *.
  destruct (Ascii.eqb c "{").
  - destruct s as [|c2 s]; [discriminate|].
    apply Ascii.eqb_eq in H as ->. cbn. eauto.
  - destruct (Ascii.eqb c "}"); [discriminate|]. apply IH. assumption.
Qed.

Lemma build_string_eq fuel s kw out :
  build_string fuel s kw out =
  match scan_literal s EmptyString with
  | LitError => FRaise ValueError
  | LitEnd lit => FOk (String.append out lit)
  | LitEscaped lit rest =>
    match fuel with
    | O => FUnmodelled
    | S fuel' => build_string fuel' rest kw (String.append out lit)
    end
  | LitField lit rest =>
    match parse_field rest with
    | None => FRaise ValueError
    | Some (f, rest') =>
      match render_field f kw with
      | FOk text =>
        match fuel with
        | O => FUnmodelled
        | S fuel' =>
          build_string fuel' rest' kw (String.append (String.append out lit) text)
        end
      | r => r
      end
    end
  end.
Proof. destruct fuel; reflexivity. Qed.

(** [str.format] leaves a text without braces as it is, whatever the
    arguments. *)
Lemma format_brace_free s kw : brace_free s = true -> format s kw = FOk s.
Proof.
  intros H. unfold format. rewrite build_string_eq, scan_literal_brace_free by assumption.
  reflexivity.
Qed.

(** A text whose first field is [{}] asks for the first positional
    argument, and there is none. *)
Lemma format_positional s kw : positional_first s = true -> format s kw = FRaise IndexError.
Proof.
  intros H. unfold format. rewrite build_string_eq.
  destruct (scan_literal_positional s EmptyString H) as (lit & rest & ->).
  reflexivity.
Qed.

Lemma get_message_with_arguments key lang kw m :
  kw <> [] -> get_message key lang [] = FOk m ->
  get_message key lang kw =
  match format m kw with
  | FRaise KeyError | FRaise ValueError => FOk m
  | r => r
  end.
Proof.
  intros Hkw Hm. destruct kw as [|a kw]; [contradiction|].
  unfold get_message in *. cbv zeta in *.
  apply (f_equal (fun r => match r with FOk s => s | _ => m end)) in Hm.
  cbv beta iota in Hm. rewrite Hm. reflexivity.
Qed.

(** X12.  What keyword arguments do to a message.  A template without
    braces is returned as it is, whatever the arguments; a template whose
    first field is [{}] makes the call raise [IndexError], whatever the
    arguments. *)
Theorem keyword_arguments_are_never_substituted key lang kw m :
  kw <> [] -> get_message key lang [] = FOk m ->
  (brace_free m = true -> get_message key lang kw = FOk m) /\
  (positional_first m = true -> get_message key lang kw = FRaise IndexError).
Proof.
  intros Hkw Hm. rewrite (get_message_with_arguments key lang kw m Hkw Hm).
  split; intros H.
  - rewrite format_brace_free by assumption. reflexivity.
  - rewrite format_positional by assumption. reflexivity.
Qed.

Lemma keyword_arguments_are_never_substituted_witness :
  (brace_free "Processing your file... Please wait." = true ->
   get_message "processing" "en" [("progress", VInt 0)] =
     FOk "Processing your file... Please wait.") /\
  (positional_first "Processing your file... Please wait." = true ->
   get_message "processing" "en" [("progress", VInt 0)] = FRaise IndexError).
Proof.
  apply (keyword_arguments_are_never_substituted "processing" "en" [("progress", VInt 0)]);
    [discriminate|reflexivity].
Defined.

Lemma dict_get_In {V : Type} (d : list (string * V)) k v :
  dict_get d k = Ok v -> In (k, v) d.
Proof.
  induction d as [|[k' v'] d IH]; [discriminate|]. cbn [dict_get].
  destruct (String.eqb_spec k k') as [->|Hne].
  - intros [= ->]. now left.
  - intros H. right. auto.
Qed.

Lemma messages_tables lang table :
  dict_get MESSAGES lang = Ok table ->
  forallb (fun km => brace_free (snd km) || positional_first (snd km)) table = true.
Proof.
  unfold MESSAGES. cbn [dict_get].
  destruct (String.eqb lang "en"); [intros [= <-]; vm_compute; reflexivity|].
  destruct (String.eqb lang "fa"); [intros [= <-]; vm_compute; reflexivity|].
  discriminate.
Qed.

(** X13.  Every message of the table, in either language, is of one of the
    two kinds: called with keyword arguments, [get_message] returns the
    template unchanged when it has no field and raises [IndexError] when
    it has one.  No call substitutes an argument into a message. *)
Theorem table_message_returned_or_IndexError lang key table m kw :
  dict_get MESSAGES lang = Ok table -> dict_get table key = Ok m -> kw <> [] ->
  get_message key lang kw = if brace_free m then FOk m else FRaise IndexError.
Proof.
  intros Ht Hk Hkw.
  assert (Hm : get_message key lang [] = FOk m).
  { unfold get_message. rewrite Ht. cbv zeta. rewrite Ht, Hk. reflexivity. }
  rewrite (get_message_with_arguments key lang kw m Hkw Hm).
  pose proof (messages_tables lang table Ht) as Hall.
  rewrite forallb_forall in Hall. specialize (Hall (key, m) (dict_get_In _ _ _ Hk)).
  cbn [snd] in Hall.
  destruct (brace_free m) eqn:Hb.
  - rewrite format_brace_free by assumption. reflexivity.
  - rewrite format_positional by assumption. reflexivity.
Qed.

Lemma table_message_returned_or_IndexError_witness :
  exists table m,
    dict_get MESSAGES "en" = Ok table /\
    dict_get table "extracting" = Ok m /\
    brace_free m = false /\
    get_message "extracting" "en" [("progress", VInt 0)] =
      if brace_free m then FOk m else FRaise IndexError.
Proof.
  do 2 eexists. split; [reflexivity|]. split; [reflexivity|]. split; [reflexivity|].
  eapply (table_message_returned_or_IndexError "en" "extracting" _ _ [("progress", VInt 0)]);
    [reflexivity|reflexivity|discriminate].
Defined.

Lemma dict_get_mirror {V : Type} (f : V -> bool) (d1 d2 : list (string * V)) k :
  map fst d1 = map fst d2 ->
  map (fun kv => f (snd kv)) d1 = map (fun kv => f (snd kv)) d2 ->
  match dict_get d1 k, dict_get d2 k with
  | Ok a, Ok b => f a = f b
  | Raise _, Raise _ => True
  | _, _ => False
  end.
Proof.
  revert d2. induction d1 as [|[k1 v1] d1 IH]; intros [|[k2 v2] d2] H1 H2;
    try discriminate; [exact I|].
  cbn in H1, H2. injection H1 as -> H1. injection H2 as Hv H2.
  cbn [dict_get]. destruct (String.eqb k k2); [exact Hv|]. apply IH; assumption.
Qed.

(** X14.  The Persian table mirrors the English one: a key is a message
    of both or of neither, and where it is, both templates have a field or
    neither has.  A message is therefore returned, or makes the call
    raise, in both languages alike. *)
Theorem persian_table_mirrors_english key en fa :
  dict_get MESSAGES "en" = Ok en -> dict_get MESSAGES "fa" = Ok fa ->
  match dict_get en key, dict_get fa key with
  | Ok a, Ok b => brace_free a = brace_free b
  | Raise _, Raise _ => True
  | _, _ => False
  end.
Proof.
  intros [= <-] [= <-]. apply dict_get_mirror; vm_compute; reflexivity.
Qed.

Lemma persian_table_mirrors_english_witness :
  exists en fa,
    dict_get MESSAGES "en" = Ok en /\ dict_get MESSAGES "fa" = Ok fa /\
    match dict_get en "compressing", dict_get fa "compressing" with
    | Ok a, Ok b => brace_free a = brace_free b
    | Raise _, Raise _ => True
    | _, _ => False
    end.
Proof.
  do 2 eexists. split; [reflexivity|]. split; [reflexivity|].
  eapply (persian_table_mirrors_english "compressing"); reflexivity.
Defined.

(** *** Calls without keyword arguments *)

(** The table has a text for [k] that is neither empty nor [k] itself. *)
Definition rendered_in (table : list (string * string)) (k : string) : bool :=
  match dict_get table k with
  | Ok m => negb (String.eqb m k) && negb (String.eqb m "")
  | Raise _ => false
  end.

Lemma english_keys_rendered en fa :
  dict_get MESSAGES "en" = Ok en -> dict_get MESSAGES "fa" = Ok fa ->
  forallb (fun km => rendered_in en (fst km) && rendered_in fa (fst km)) en = true.
Proof. intros [= <-] [= <-]. vm_compute. reflexivity. Qed.

Lemma get_message_known key lang table m :
  dict_get MESSAGES lang = Ok table -> dict_get table key = Ok m ->
  get_message key lang [] = FOk m.
Proof. intros E1 E2. unfold get_message. rewrite E1. cbv zeta. rewrite E1, E2. reflexivity. Qed.

Lemma rendered_in_get_message key lang table :
  dict_get MESSAGES lang = Ok table -> rendered_in table key = true ->
  exists m, get_message key lang [] = FOk m /\ m <> key /\ m <> "".
Proof.
  intros E H. unfold rendered_in in H.
  destruct (dict_get table key) as [m|e] eqn:Ek; [|discriminate].
  apply andb_prop in H as [H1 H2]. apply negb_true_iff in H1, H2.
  apply String.eqb_neq in H1, H2.
  exists m. split; [|split; assumption].
  apply (get_message_known key lang table m E Ek).
Qed.

(** X2.  What [get_message] returns when it is called without keyword
    arguments: the language's template when the key is a message of the
    language, the key itself when it is not, and what the English table
    gives when the language is no key of [MESSAGES].  Both tables have a
    text for every key of the English one, so such a key is rendered in
    every language, known or not, as a text that is neither empty nor the
    key itself. *)
Theorem get_message_without_arguments key lang :
  (forall table m,
     dict_get MESSAGES lang = Ok table -> dict_get table key = Ok m ->
     get_message key lang [] = FOk m) /\
  (forall table,
     dict_get MESSAGES lang = Ok table -> dict_get table key = Raise KeyError ->
     get_message key lang [] = FOk key) /\
  (forall en,
     dict_get MESSAGES lang = Raise KeyError -> dict_get MESSAGES "en" = Ok en ->
     get_message key lang [] =
     FOk (match dict_get en key with Ok m => m | Raise _ => key end)) /\
  (forall en m,
     dict_get MESSAGES "en" = Ok en -> dict_get en key = Ok m ->
     exists m', get_message key lang [] = FOk m' /\ m' <> key /\ m' <> "").
Proof.
  split; [|split; [|split]].
  - apply get_message_known.
  - apply get_message_unknown_key.
  - intros en E He. rewrite (get_message_unknown_lang key lang [] E).
    destruct (dict_get en key) as [m|e] eqn:Ek.
    + apply (get_message_known key "en" en m He Ek).
    + assert (e = KeyError) as ->.
      { clear -Ek. induction en as [|[k v] en IH]; cbn [dict_get] in Ek.
        - congruence.
        - destruct (String.eqb key k); [discriminate|auto]. }
      apply (get_message_unknown_key key "en" en He Ek).
  - intros en m He Hk.
    assert (Hfa : exists fa, dict_get MESSAGES "fa" = Ok fa) by (eexists; reflexivity).
    destruct Hfa as [fa Hfa].
    pose proof (english_keys_rendered en fa He Hfa) as Hall.
    rewrite forallb_forall in Hall.
    specialize (Hall (key, m) (dict_get_In _ _ _ Hk)). cbn [fst] in Hall.
    apply andb_prop in Hall as [Hen Hf].
    destruct (language_cases lang) as [->|[->|E]].
    + apply (rendered_in_get_message key "en" en He Hen).
    + apply (rendered_in_get_message key "fa" fa Hfa Hf).
    + rewrite (get_message_unknown_lang key lang [] E).
      apply (rendered_in_get_message key "en" en He Hen).
Qed.

(** [processing] in English, in Persian and in a language without a
    table; and a key without a message. *)
Lemma get_message_without_arguments_witness :
  get_message "processing" "en" [] = FOk "Processing your file... Please wait." /\
  get_message "processing" "de" [] = FOk "Processing your file... Please wait." /\
  get_message "no_such_key" "fa" [] = FOk "no_such_key" /\
  exists m', get_message "processing" "fa" [] = FOk m' /\
             m' <> "processing" /\ m' <> "".
Proof.
  split; [|split; [|split]].
  - eapply (proj1 (get_message_without_arguments "processing" "en")); reflexivity.
  - exact (proj1 (proj2 (proj2 (get_message_without_arguments "processing" "de")))
             _ eq_refl eq_refl).
  - eapply (proj1 (proj2 (get_message_without_arguments "no_such_key" "fa")));
      reflexivity.
  - eapply (proj2 (proj2 (proj2 (get_message_without_arguments "processing" "fa"))));
      reflexivity.
Defined.

End Messages.

(** ** handlers.py

    The handlers are coroutines on one event loop.  A coroutine runs alone
    from one [await] to the next; at an [await] it parks, and the loop may
    start or resume any other coroutine before the awaited call completes.
    The module's globals, the file system and the asyncio tasks form the
    [World] all coroutines share.  The properties below speak of one turn
    of one handler from an arbitrary world, or of a coroutine resumed in
    an arbitrary world after each [await].  [extract_callback] (from line
    251) is cut off inside its [try] block, at the end of the available
    source, and is not embedded; nor are the asyncio tasks' own turns. *)

Module Handlers.

Import Config Messages.

(** [message.document]. *)
Record Document := {
  file_id : string;
  file_name : option string;
  file_size : option Z
}.

(** A value of [user_tasks]: a dict with the keys the handlers set. *)
Record TaskDict := {
  temp_files : option (list string);
  operation : option string;
  td_file_path : option string;
  td_format : option string;
  task : option nat
}.

(** [{}]. *)
Definition empty_dict : TaskDict :=
  {| temp_files := None; operation := None; td_file_path := None;
     td_format := None; task := None |}.

(** An [asyncio.Task] made by [create_task(compress_file(...))]: the
    arguments of the call, the requester whose handler made it, whether
    [cancel()] was called on it, and its result once it is done. *)
Record AioTask := {
  at_owner : Z;
  at_path : string;
  at_format : string;
  cancel_requested : bool;
  at_result : option (ZipUtils.outcome string)
}.

(** [task.done()]. *)
Definition done (t : AioTask) : bool :=
  match at_result t with Some _ => true | None => false end.

Record World := {
  concurrent_tasks : Z;
  user_tasks : gmap Z TaskDict;
  user_languages : gmap Z string;
  files : FS;
  tasks : list AioTask
}.

Definition with_count (w : World) (n : Z) : World :=
  {| concurrent_tasks := n; user_tasks := user_tasks w;
     user_languages := user_languages w; files := files w; tasks := tasks w |}.

Definition with_user_tasks (w : World) (m : gmap Z TaskDict) : World :=
  {| concurrent_tasks := concurrent_tasks w; user_tasks := m;
     user_languages := user_languages w; files := files w; tasks := tasks w |}.

Definition with_languages (w : World) (m : gmap Z string) : World :=
  {| concurrent_tasks := concurrent_tasks w; user_tasks := user_tasks w;
     user_languages := m; files := files w; tasks := tasks w |}.

Definition with_files (w : World) (f : FS) : World :=
  {| concurrent_tasks := concurrent_tasks w; user_tasks := user_tasks w;
     user_languages := user_languages w; files := f; tasks := tasks w |}.

Definition with_tasks (w : World) (l : list AioTask) : World :=
  {| concurrent_tasks := concurrent_tasks w; user_tasks := user_tasks w;
     user_languages := user_languages w; files := files w; tasks := l |}.

(** *** Coroutines *)

(** What a handler awaits. *)
Inductive call :=
| MessageAnswer (text : string) (buttons : list string)
| CallbackAnswer
| BotDownload (file : string) (destination : string)
| SendDocument (path caption : string)
| SplitAndSendFile (path : string)
| AwaitTask (h : nat).

(** How an awaited call completes. *)
Inductive reply :=
| Returns
| Raises (e : exn)
| Stored (data : list byte)
| TaskReturns (path : string).

(** A coroutine: it returns, raises, reads or writes the world, or awaits
    a call and goes on with the reply.  [Stuck] is a step the embedding
    does not follow. *)
Inductive coro (A : Type) :=
| Ret (a : A)
| Throw (e : exn)
| Stuck
| Get (k : World -> coro A)
| Put (w : World) (k : coro A)
| Await (c : call) (k : reply -> coro A).
Arguments Ret {A} a.
Arguments Throw {A} e.
Arguments Stuck {A}.
Arguments Get {A} k.
Arguments Put {A} w k.
Arguments Await {A} c k.

Fixpoint bind {A B : Type} (c : coro A) (f : A -> coro B) : coro B :=
  match c with
  | Ret a => f a
  | Throw e => Throw e
  | Stuck => Stuck
  | Get k => Get (fun w => bind (k w) f)
  | Put w k => Put w (bind k f)
  | Await cl k => Await cl (fun r => bind (k r) f)
  end.

#[export] Instance coro_ret : MRet coro := @Ret.
#[export] Instance coro_bind : MBind coro := fun A B f c => bind c f.

(** [try: c except ...: h]: [h e] is the handler of the first clause that
    matches [e], if one does. *)
Fixpoint try_except {A : Type} (c : coro A) (h : exn -> option (coro A)) : coro A :=
  match c with
  | Ret a => Ret a
  | Throw e => match h e with Some c' => c' | None => Throw e end
  | Stuck => Stuck
  | Get k => Get (fun w => try_except (k w) h)
  | Put w k => Put w (try_except k h)
  | Await cl k => Await cl (fun r => try_except (k r) h)
  end.

(** [try: c finally: fin]. *)
Fixpoint try_finally {A : Type} (c : coro A) (fin : coro unit) : coro A :=
  match c with
  | Ret a => bind fin (fun _ => Ret a)
  | Throw e => bind fin (fun _ => Throw e)
  | Stuck => Stuck
  | Get k => Get (fun w => try_finally (k w) fin)
  | Put w k => Put w (try_finally k fin)
  | Await cl k => Await cl (fun r => try_finally (k r) fin)
  end.

Definition get_world : coro World := Get (fun w => Ret w).

Definition modify (f : World -> World) : coro unit :=
  Get (fun w => Put (f w) (Ret tt)).

(** A step on the world that can raise. *)
Definition attempt (f : World -> result World) : coro unit :=
  Get (fun w => match f w with Ok w' => Put w' (Ret tt) | Raise e => Throw e end).

(** [await c]: the reply, or the exception the call raised. *)
Definition await (c : call) : coro reply :=
  Await c (fun r => match r with Raises e => Throw e | _ => Ret r end).

(** [get_message(key, lang, ...)] inside a coroutine. *)
Definition message (key lang : string) (kw : kwargs) : coro string :=
  match get_message key lang kw with
  | FOk s => Ret s
  | FRaise e => Throw e
  | FUnmodelled => Stuck
  end.

(** [await message.answer(text, reply_markup=...)]; [buttons] are the
    [callback_data] of the keyboard. *)
Definition answer (text : string) (buttons : list string) : coro unit :=
  _ ← await (MessageAnswer text buttons); mret tt.

(** *** Steps on the world *)

(** [os.remove] inside [try ... except Exception] after the
    [os.path.exists] test: a directory is not removed, the error is
    logged. *)
Definition remove_temp_file (f : FS) (p : string) : FS :=
  match f !! p with
  | Some Dir => f
  | Some _ => delete p f
  | None => f
  end.

(** [for temp_file in l: ...]. *)
Definition remove_temp_files (l : list string) (f : FS) : FS :=
  fold_left remove_temp_file l f.

(** [task.cancel()] when [not task.done()]. *)
Definition cancel_task (h : nat) (l : list AioTask) : list AioTask :=
  match l !! h with
  | Some t =>
    if done t then l
    else <[h := {| at_owner := at_owner t; at_path := at_path t;
                   at_format := at_format t; cancel_requested := true;
                   at_result := at_result t |}]> l
  | None => l
  end.

(** The test that opens [handle_document]:
    [user_id in user_tasks and user_tasks[user_id].get("task") and not
    user_tasks[user_id].get("task").done()]. *)
Definition has_active_task (w : World) (user_id : Z) : bool :=
  match user_tasks w !! user_id with
  | Some d =>
    match task d with
    | Some h => match tasks w !! h with Some t => negb (done t) | None => false end
    | None => false
    end
  | None => false
  end.

(** [user_tasks[user_id][key] = ...]: [KeyError] without an entry. *)
Definition update_entry (user_id : Z) (f : TaskDict -> TaskDict) (w : World)
  : result World :=
  match user_tasks w !! user_id with
  | Some d => Ok (with_user_tasks w (<[user_id := f d]> (user_tasks w)))
  | None => Raise KeyError
  end.

(** [user_tasks[user_id]["temp_files"].append(p)]. *)
Definition append_temp_file (user_id : Z) (p : string) (w : World) : result World :=
  match user_tasks w !! user_id with
  | Some d =>
    match temp_files d with
    | Some l =>
      Ok (with_user_tasks w
            (<[user_id := {| temp_files := Some (l ++ [p]); operation := operation d;
                             td_file_path := td_file_path d; td_format := td_format d;
                             task := task d |}]> (user_tasks w)))
    | None => Raise KeyError
    end
  | None => Raise KeyError
  end.

(** One level of [os.makedirs(..., exist_ok=True)]. *)
Definition mkdir_exist_ok (p : string) (f : FS) : result FS :=
  match f !! p with
  | None => Ok (<[p := Dir]> f)
  | Some Dir => Ok f
  | Some _ => Raise OSError
  end.

(** [os.makedirs(os.path.join(TEMP_DIR, name), exist_ok=True)]. *)
Definition makedirs_in_temp (name : string) (w : World) : result World :=
  match mkdir_exist_ok TEMP_DIR (files w) with
  | Raise e => Raise e
  | Ok f1 =>
    match mkdir_exist_ok (OsPath.join TEMP_DIR name) f1 with
    | Raise e => Raise e
    | Ok f2 => Ok (with_files w f2)
    end
  end.

(** The clean-up block of [handle_document] (lines 155-162). *)
Definition clean_up_document (user_id : Z) (w : World) : World :=
  match user_tasks w !! user_id with
  | Some d =>
    with_user_tasks
      (with_files w (remove_temp_files (default [] (temp_files d)) (files w)))
      (<[user_id := empty_dict]> (user_tasks w))
  | None => w
  end.

(** The clean-up block of [compress_callback] (lines 232-239). *)
Definition clean_up_compress (user_id : Z) (w : World) : result World :=
  match user_tasks w !! user_id with
  | Some d =>
    Ok (with_user_tasks
          (with_files w (remove_temp_files (default [] (temp_files d)) (files w)))
          (<[user_id := empty_dict]> (user_tasks w)))
  | None => Raise KeyError
  end.

(** [str(e)], as far as the handlers use it: an argument of [get_message]. *)
Definition exn_text (e : exn) : string :=
  match e with
  | CancelledError => ""
  | IndexError => "Replacement index 0 out of range for positional args tuple"
  | KeyError => "key"
  | ValueError => "value"
  | OSError => "os"
  | OtherError => "error"
  end.

(** [s.upper()] on ASCII letters. *)
Definition upper_char (c : ascii) : ascii :=
  let n := nat_of_ascii c in
  if (97 <=? n)%nat && (n <=? 122)%nat then ascii_of_nat (n - 32) else c.

Fixpoint upper (s : string) : string :=
  match s with
  | EmptyString => EmptyString
  | String c s' => String (upper_char c) (upper s')
  end.

(** [s.split(":", 1)]: the text before the first colon and the text after
    it, when there is a colon. *)
Fixpoint split_colon (s acc : string) : option (string * string) :=
  match s with
  | EmptyString => None
  | String c s' =>
    if Ascii.eqb c ":" then Some (acc, s') else split_colon s' (snoc acc c)
  end.

(** [_, file_path, format_name = data.split(":", 2)]: three parts, or the
    [ValueError] of the unpacking. *)
Definition split_callback_data (data : string) : option (string * string * string) :=
  match split_colon data EmptyString with
  | None => None
  | Some (a, rest) =>
    match split_colon rest EmptyString with
    | None => None
    | Some (b, c) => Some (a, b, c)
    end
  end.

(** [asyncio.create_task(compress_file(file_path, format_name, ...))]: the
    handle of the new task. *)
Definition create_task (owner : Z) (path fmt : string) : coro nat :=
  Get (fun w =>
    Put (with_tasks w (tasks w ++ [{| at_owner := owner; at_path := path;
                                       at_format := fmt; cancel_requested := false;
                                       at_result := None |}]))
        (Ret (length (tasks w)))).

(** What [remove_temp_files] leaves at a path: a listed path is gone
    unless it names a directory, any other path is as before. *)
Lemma remove_temp_files_lookup l f p :
  remove_temp_files l f !! p =
  if bool_decide (p ∈ l)
  then match f !! p with Some Dir => Some Dir | _ => None end
  else f !! p.
Proof.
  unfold remove_temp_files. revert f.
  induction l as [|a l IH]; intros f; cbn [fold_left].
  - rewrite bool_decide_eq_false_2; [reflexivity|]. apply not_elem_of_nil.
  - rewrite IH.
    assert (Ha : remove_temp_file f a !! p =
                 if decide (p = a)
                 then match f !! p with Some Dir => Some Dir | _ => None end
                 else f !! p).
    { unfold remove_temp_file. destruct (decide (p = a)) as [->|Hne].
      - destruct (f !! a) as [[| |]|] eqn:E; rewrite ?lookup_delete_eq, ?E; reflexivity.
      - destruct (f !! a) as [[| |]|];
          rewrite ?lookup_delete_ne by congruence; reflexivity. }
    rewrite Ha.
    destruct (decide (p = a)) as [->|Hne].
    + rewrite (bool_decide_eq_true_2 (a ∈ a :: l)) by apply list_elem_of_here.
      destruct (bool_decide (a ∈ l)); destruct (f !! a) as [[| |]|]; reflexivity.
    + destruct (bool_decide_reflect (p ∈ l)) as [Hin|Hnin].
      * rewrite bool_decide_eq_true_2 by (apply list_elem_of_further; assumption).
        reflexivity.
      * rewrite bool_decide_eq_false_2; [reflexivity|].
        rewrite elem_of_cons. tauto.
Qed.

(** [_, file_path = callback.data.split(":", 1)] of [extract_callback]
    (line 260): two parts, or the [ValueError] of the unpacking. *)
Definition split_extract_data (data : string) : option (string * string) :=
  split_colon data EmptyString.

Lemma split_colon_app a r : forall acc,
  OsPath.has_char ":" a = false ->
  split_colon (String.append a (String ":" r)) acc = Some (String.append acc a, r).
Proof.
  induction a as [|c a IH]; intros acc H.
  - change (split_colon (String ":" r) acc = Some (acc +:+ "", r)).
    rewrite OsPath.append_empty_r. reflexivity.
  - change (split_colon (String c (a +:+ String ":" r)) acc = Some (acc +:+ String c a, r)).
    cbn [OsPath.has_char] in H. apply orb_false_elim in H as [Hc Ha].
    cbn [split_colon]. rewrite Hc, IH by assumption.
    unfold snoc. rewrite OsPath.append_assoc. reflexivity.
Qed.

(** X15.  The callback data of the buttons, written by
    [handle_document] and read back by the callbacks.  [extract:<path>]
    gives back the path, whatever it is.  [compress:<path>:<format>] gives
    back the path and the format when the path has no colon; a path with a
    colon is cut at its first colon, and the rest is taken for the
    format. *)
Theorem callback_data_round_trip file_path format_name :
  split_extract_data (String.append "extract:" file_path) = Some ("extract", file_path) /\
  (OsPath.has_char ":" file_path = false ->
   split_callback_data
     (String.append "compress:" (String.append file_path (String.append ":" format_name)))
   = Some ("compress", file_path, format_name)) /\
  (forall a b, OsPath.has_char ":" a = false -> file_path = String.append a (String ":" b) ->
   split_callback_data
     (String.append "compress:" (String.append file_path (String.append ":" format_name)))
   = Some ("compress", a, String.append b (String.append ":" format_name))).
Proof.
  split; [|split].
  - unfold split_extract_data.
    change ("extract:" +:+ file_path) with ("extract" +:+ String ":" file_path).
    rewrite split_colon_app by reflexivity. reflexivity.
  - intros H. unfold split_callback_data.
    change ("compress:" +:+ ?x) with ("compress" +:+ String ":" x).
    rewrite split_colon_app by reflexivity.
    change (":" +:+ format_name) with (String ":" format_name).
    rewrite split_colon_app by assumption. reflexivity.
  - intros a b H ->. unfold split_callback_data.
    change ("compress:" +:+ ?x) with ("compress" +:+ String ":" x).
    rewrite split_colon_app by reflexivity.
    rewrite OsPath.append_assoc.
    change (String ":" b +:+ ?x) with (String ":" (b +:+ x)).
    rewrite split_colon_app by assumption. reflexivity.
Qed.

Section Platform.

(** [is_archive_file] of zip_utils, whose definition lies beyond the end
    of the available source. *)
Variable is_archive_file : FS -> string -> bool.

(** The size in bytes of the file an archive library writes for the given
    members: what [os.path.getsize] returns for an archive. *)
Variable archive_size : archive_kind -> list member -> Z.

(** [os.path.getsize(p)]. *)
Definition getsize (f : FS) (p : string) : coro Z :=
  match f !! p with
  | Some (File data) => Ret (len data)
  | Some (Archive k ms) => Ret (archive_size k ms)
  | Some Dir => Stuck
  | None => Throw OSError
  end.

(** *** The handlers *)

(** [cmd_start]; [lang] is [get_user_language(message)]. *)
Definition cmd_start (user_id : Z) (lang : string) : coro unit :=
  modify (fun w => with_languages w (<[user_id := lang]> (user_languages w)));;
  text ← message "start" lang [];
  answer text [].

(** [cmd_help]. *)
Definition cmd_help (lang : string) : coro unit :=
  text ← message "help" lang [];
  answer text [].

(** [cmd_cancel]. *)
Definition cmd_cancel (user_id : Z) (lang : string) : coro unit :=
  w ← get_world;
  match user_tasks w !! user_id with
  | Some {| temp_files := tf; task := Some h |} =>
    (* if not task.done(): task.cancel() *)
    modify (fun w => with_tasks w (cancel_task h (tasks w)));;
    (* if "temp_files" in user_tasks[user_id]: remove each one that exists *)
    modify (fun w => with_files w (remove_temp_files (default [] tf) (files w)));;
    (* user_tasks[user_id] = {} *)
    modify (fun w => with_user_tasks w (<[user_id := empty_dict]> (user_tasks w)));;
    text ← message "task_cancelled" lang [];
    answer text []
  | _ =>
    text ← message "no_active_task" lang [];
    answer text []
  end.

(** [handle_document]. *)
Definition handle_document (user_id : Z) (lang : string) (doc : Document) : coro unit :=
  w ← get_world;
  (* Check if user has an active task *)
  if has_active_task w user_id then
    text ← message "processing" lang [];
    answer text []
  (* Check concurrent task limit *)
  else if MAX_CONCURRENT_TASKS <=? concurrent_tasks w then
    text ← message "error_general" lang
             [("error", VStr "Too many active tasks. Please try again later.")];
    answer text []
  else
    (* user_tasks[user_id] = {"temp_files": []} *)
    modify (fun w => with_user_tasks w
              (<[user_id := {| temp_files := Some []; operation := None;
                               td_file_path := None; td_format := None;
                               task := None |}]> (user_tasks w)));;
    try_except
      (let name := match file_name doc with
                   | Some n => if String.eqb n "" then "unknown_file" else n
                   | None => "unknown_file"
                   end in
       let size := default 0 (file_size doc) in
       let file_size_mb := PyFloat.true_div size (1024 * 1024) in
       attempt (makedirs_in_temp (pretty user_id));;
       let file_path := OsPath.join (OsPath.join TEMP_DIR (pretty user_id)) name in
       attempt (append_temp_file user_id file_path);;
       text ← message "file_received" lang
                [("file_name", VStr name); ("file_size_mb", VFloat file_size_mb)];
       answer text [];;
       text ← message "processing" lang [];
       answer text [];;
       _ ← await (BotDownload (file_id doc) file_path);
       w ← get_world;
       if is_archive_file (files w) file_path then
         answer "Choose action:"
           [String.append "extract:" file_path; String.append "preview:" file_path]
       else
         text ← message "compress_format_select" lang [];
         answer text
           (map (fun f => String.append "compress:"
                            (String.append file_path (String.append ":" (fst f))))
                COMPRESSION_FORMATS))
      (fun e =>
         if is_Exception e then
           Some (text ← message "error_processing" lang [("error", VStr (exn_text e))];
                 answer text [];;
                 modify (clean_up_document user_id))
         else None).

(** [compress_callback]; [data] is [callback.data]. *)
Definition compress_callback (user_id : Z) (data : string) : coro unit :=
  _ ← await CallbackAnswer;
  w ← get_world;
  let lang := default "en" (user_languages w !! user_id) in
  match split_callback_data data with
  | None => Throw ValueError
  | Some (_, file_path, format_name) =>
    if negb (path_exists (files w) file_path) then
      text ← message "error_processing" lang [("error", VStr "File not found")];
      answer text []
    else
      (* Update user task *)
      attempt (update_entry user_id (fun d =>
        {| temp_files := temp_files d; operation := Some "compress";
           td_file_path := Some file_path; td_format := Some format_name;
           task := task d |}));;
      try_finally
        (try_except
           ((* Increment concurrent tasks *)
            modify (fun w => with_count w (concurrent_tasks w + 1));;
            text ← message "compressing" lang
                     [("format", VStr (upper format_name)); ("progress", VInt 0)];
            answer text [];;
            (* Start compression task *)
            h ← create_task user_id file_path format_name;
            attempt (update_entry user_id (fun d =>
              {| temp_files := temp_files d; operation := operation d;
                 td_file_path := td_file_path d; td_format := td_format d;
                 task := Some h |}));;
            (* Wait for compression to complete *)
            r ← await (AwaitTask h);
            match r with
            | TaskReturns output_path =>
              attempt (append_temp_file user_id output_path);;
              text ← message "compression_complete" lang [];
              answer text [];;
              w ← get_world;
              size ← getsize (files w) output_path;
              (if 50 * 1024 * 1024 <? size then
                 text ← message "file_too_large_telegram" lang [];
                 answer text [];;
                 _ ← await (SplitAndSendFile output_path); mret tt
               else
                 _ ← await (SendDocument output_path
                              (String.append "Compressed file ("
                                 (String.append (upper format_name) ")")));
                 mret tt);;
              (* Clean up *)
              attempt (clean_up_compress user_id)
            | _ => Stuck
            end)
           (fun e =>
              if exn_eqb e CancelledError then
                Some (text ← message "task_cancelled" lang [];
                      answer text [])
              else if is_Exception e then
                Some (text ← message "error_compression" lang
                               [("error", VStr (exn_text e))];
                      answer text [])
              else None))
        ((* Decrement concurrent tasks *)
         modify (fun w => with_count w (concurrent_tasks w - 1)))
  end.

(** *** Turns

    The loop: the world, the coroutine that runs now, and the coroutines
    parked at an [await], each with the call it awaits. *)
Record Loop := {
  world : World;
  running : option (coro unit);
  parked : list (call * (reply -> coro unit))
}.

(** The loop at start-up, over the files [f] on disk. *)
Definition initial (f : FS) : Loop :=
  {| world := {| concurrent_tasks := 0; user_tasks := ∅; user_languages := ∅;
                 files := f; tasks := [] |};
     running := None; parked := [] |}.

(** How a coroutine leaves its turn. *)
Inductive turn_end :=
| Finished
| Failed (e : exn)
| Parked (c : call) (k : reply -> coro unit)
| Unfollowed.

(** One turn of a coroutine, from the world [w] to its next [await] or its
    end: the worlds it writes, in order, and how the turn ends. *)
Fixpoint turn (c : coro unit) (w : World) : list World * turn_end :=
  match c with
  | Ret _ => ([], Finished)
  | Throw e => ([], Failed e)
  | Stuck => ([], Unfollowed)
  | Get k => turn (k w) w
  | Put w' k => let '(ws, e) := turn k w' in (w' :: ws, e)
  | Await cl k => ([], Parked cl k)
  end.

(** *** What a coroutine keeps across its [await]s *)

Section Invariant.

(** [P] holds of the world whenever the coroutine does not run, [Q] of
    every world it writes. *)
Variables P Q : World -> Prop.

(** A coroutine started in a world that satisfies [P] keeps [Q] at every
    write and re-establishes [P] at every [await] and at its end, whatever
    the world has become when it is resumed. *)
Fixpoint safe (c : coro unit) (w : World) : Prop :=
  match c with
  | Ret _ | Throw _ | Stuck => P w
  | Get k => safe (k w) w
  | Put w' k => Q w' /\ safe k w'
  | Await _ k => P w /\ forall r w', P w' -> safe (k r) w'
  end.

End Invariant.

(** *** Messages that render and messages that raise *)

Lemma message_plain key lang : exists s, message key lang [] = Ret s.
Proof. unfold message. destruct (get_message_plain key lang) as [s ->]. eauto. Qed.

Lemma message_raises key lang kw e :
  get_message key lang kw = FRaise e -> message key lang kw = Throw e.
Proof. unfold message. now intros ->. Qed.

(** Rewrites the calls of [message] that raise, and names the text of
    those that return. *)
Ltac messages :=
  repeat match goal with
  | |- context [message "compressing" ?l ?kw] =>
    rewrite (message_raises "compressing" l kw IndexError
               (compressing_raises l kw ltac:(discriminate)))
  | |- context [message "error_compression" ?l ?kw] =>
    rewrite (message_raises "error_compression" l kw IndexError
               (error_compression_raises l kw ltac:(discriminate)))
  | |- context [message "error_processing" ?l ?kw] =>
    rewrite (message_raises "error_processing" l kw IndexError
               (error_processing_raises l kw ltac:(discriminate)))
  | |- context [message "error_general" ?l ?kw] =>
    rewrite (message_raises "error_general" l kw IndexError
               (error_general_raises l kw ltac:(discriminate)))
  | |- context [message "file_received" ?l ?kw] =>
    rewrite (message_raises "file_received" l kw IndexError
               (file_received_raises l kw ltac:(discriminate)))
  | |- context [message ?k ?l []] =>
    let s := fresh "text" in
    let E := fresh "E" in
    destruct (message_plain k l) as [s E]; rewrite E; clear E
  end.

(** The coroutine resumed with the reply to the call it awaits. *)
Definition resume (c : coro unit) (r : reply) : coro unit :=
  match c with
  | Await _ k => k r
  | _ => c
  end.

(** *** One turn of each handler *)

(** [compress_callback], resumed after [callback.answer()] with an
    existing file and an entry for the requester: it records the
    operation, increments the counter whatever its value, fails to render
    the progress message, fails again in its [except Exception] clause, and
    decrements the counter in [finally]. *)
Lemma compress_callback_turn w user_id data x file_path format_name d :
  split_callback_data data = Some (x, file_path, format_name) ->
  path_exists (files w) file_path = true ->
  user_tasks w !! user_id = Some d ->
  let t := turn (resume (compress_callback user_id data) Returns) w in
  map concurrent_tasks (fst t) =
    [concurrent_tasks w; concurrent_tasks w + 1; concurrent_tasks w] /\
  snd t = Failed IndexError.
Proof.
  intros Hd Hf Hu. unfold compress_callback. cbn.
  rewrite Hd, Hf. cbn. unfold update_entry. rewrite Hu. cbn.
  messages. cbn. messages. cbn.
  split; [|reflexivity]. do 3 f_equal. lia.
Qed.

(** [handle_document] past both checks: it writes the requester's entry
    and the upload directory, never the counter, and fails to render the
    [file_received] message. *)
Lemma handle_document_turn w user_id lang doc :
  has_active_task w user_id = false ->
  concurrent_tasks w < MAX_CONCURRENT_TASKS ->
  let t := turn (handle_document user_id lang doc) w in
  fst t <> [] /\
  Forall (fun w' => concurrent_tasks w' = concurrent_tasks w) (fst t) /\
  snd t = Failed IndexError.
Proof.
  intros Ha Hc. unfold handle_document. cbn. rewrite Ha.
  destruct (Z.leb_spec MAX_CONCURRENT_TASKS (concurrent_tasks w)); [lia|].
  cbn. unfold makedirs_in_temp, mkdir_exist_ok. cbn.
  destruct (files w !! TEMP_DIR) as [[| |]|]; cbn; messages; cbn;
    try (repeat split; [discriminate|repeat constructor]).
  all: match goal with
       | |- context [?f !! OsPath.join TEMP_DIR ?n] =>
         destruct (f !! OsPath.join TEMP_DIR n) as [[| |]|]
       end; cbn; messages; cbn;
    try (repeat split; [discriminate|repeat constructor]).
  all: unfold append_temp_file; cbn; rewrite lookup_insert_eq; cbn; messages; cbn.
  all: repeat split; [discriminate|repeat constructor].
Qed.



(** [handle_document] at the limit, for a requester without a live task:
    it fails to render the [error_general] message and writes nothing. *)
Lemma handle_document_at_limit w user_id lang doc :
  has_active_task w user_id = false ->
  MAX_CONCURRENT_TASKS <= concurrent_tasks w ->
  turn (handle_document user_id lang doc) w = ([], Failed IndexError).
Proof.
  intros Ha Hc. unfold handle_document. cbn. rewrite Ha.
  destruct (Z.leb_spec MAX_CONCURRENT_TASKS (concurrent_tasks w)); [|lia].
  cbn. messages. reflexivity.
Qed.




(** [cmd_cancel] for a requester whose entry holds a task. *)
Lemma cmd_cancel_turn w user_id lang d h :
  user_tasks w !! user_id = Some d -> task d = Some h ->
  exists text k,
    get_message "task_cancelled" lang [] = FOk text /\
    turn (cmd_cancel user_id lang) w =
    ([with_tasks w (cancel_task h (tasks w));
      with_files (with_tasks w (cancel_task h (tasks w)))
        (remove_temp_files (default [] (temp_files d)) (files w));
      with_user_tasks
        (with_files (with_tasks w (cancel_task h (tasks w)))
           (remove_temp_files (default [] (temp_files d)) (files w)))
        (<[user_id := empty_dict]> (user_tasks w))],
     Parked (MessageAnswer text []) k).
Proof.
  intros Hu Ht. unfold cmd_cancel. cbn. rewrite Hu.
  destruct d as [tf op fp fm tk]. cbn in Ht. subst tk. cbn.
  unfold message. destruct (get_message_plain "task_cancelled" lang) as [text E].
  rewrite E. cbn. eauto.
Qed.

(** C2 (the code departs from the claim).  The limit is tested in one
    handler and the counter is incremented in another.  [handle_document]
    compares the counter with [MAX_CONCURRENT_TASKS] (line 106): at the
    limit it writes nothing, below it it sets up the requester's entry and
    leaves the counter as it is.  [compress_callback] increments the
    counter (line 188) whatever its value and decrements it once, in its
    [finally] block: from a counter at the limit it goes one above the
    limit and back. *)
Theorem counter_incremented_without_limit_test :
  (forall w user_id lang doc,
     has_active_task w user_id = false ->
     MAX_CONCURRENT_TASKS <= concurrent_tasks w ->
     turn (handle_document user_id lang doc) w = ([], Failed IndexError)) /\
  (forall w user_id lang doc,
     has_active_task w user_id = false ->
     concurrent_tasks w < MAX_CONCURRENT_TASKS ->
     fst (turn (handle_document user_id lang doc) w) <> [] /\
     Forall (fun w' => concurrent_tasks w' = concurrent_tasks w)
            (fst (turn (handle_document user_id lang doc) w))) /\
  (forall w user_id data x file_path format_name d,
     split_callback_data data = Some (x, file_path, format_name) ->
     path_exists (files w) file_path = true ->
     user_tasks w !! user_id = Some d ->
     map concurrent_tasks
         (fst (turn (resume (compress_callback user_id data) Returns) w)) =
     [concurrent_tasks w; concurrent_tasks w + 1; concurrent_tasks w] /\
     (concurrent_tasks w = MAX_CONCURRENT_TASKS ->
      Exists (fun w' => MAX_CONCURRENT_TASKS < concurrent_tasks w')
             (fst (turn (resume (compress_callback user_id data) Returns) w)))).
Proof.
  split; [|split].
  - apply handle_document_at_limit.
  - intros w user_id lang doc Ha Hc.
    destruct (handle_document_turn w user_id lang doc Ha Hc) as (H1 & H2 & _). auto.
  - intros w user_id data x file_path format_name d Hd Hf Hu.
    destruct (compress_callback_turn w user_id data x file_path format_name d Hd Hf Hu)
      as [Hm _].
    split; [assumption|]. intros Hc.
    destruct (fst (turn (resume (compress_callback user_id data) Returns) w))
      as [|w0 [|w1 ws]]; try discriminate Hm.
    cbn [map] in Hm. apply Exists_cons_tl, Exists_cons_hd.
    assert (concurrent_tasks w1 = concurrent_tasks w + 1) by congruence. lia.
Qed.

(** C3, as the code has it.  When the requester's entry holds a task,
    [cmd_cancel] itself deletes the temporary files, in the turn in which
    it signals cancellation: it calls [cancel()] on a task that is not
    done, removes every listed path that names a file (a directory stays:
    the error of its removal is logged), leaves every other path and the
    counter alone, and clears the requester's entry. *)
Theorem cancel_deletes_listed_files w user_id lang d h :
  user_tasks w !! user_id = Some d -> task d = Some h ->
  exists w' text k,
    last (fst (turn (cmd_cancel user_id lang) w)) = Some w' /\
    snd (turn (cmd_cancel user_id lang) w) = Parked (MessageAnswer text []) k /\
    tasks w' = cancel_task h (tasks w) /\
    user_tasks w' = <[user_id := empty_dict]> (user_tasks w) /\
    concurrent_tasks w' = concurrent_tasks w /\
    forall p, files w' !! p =
              if bool_decide (p ∈ default [] (temp_files d))
              then match files w !! p with Some Dir => Some Dir | _ => None end
              else files w !! p.
Proof.
  intros Hu Ht.
  destruct (cmd_cancel_turn w user_id lang d h Hu Ht) as (text & k & _ & E).
  rewrite E. cbn [fst snd].
  eexists. exists text, k. split; [reflexivity|].
  split; [reflexivity|]. cbn. repeat split.
  intros p. apply remove_temp_files_lookup.
Qed.


(** X4.  A submission from a requester with no live task never reaches
    the download.  At the limit the handler fails to render the
    [error_general] message and writes nothing; below it, it fails to
    render [file_received] and then [error_processing] in its [except]
    clause.  Either way the turn ends with [IndexError], and neither the
    counter nor the asyncio tasks are written. *)
Theorem submission_fails_before_download w user_id lang doc :
  has_active_task w user_id = false ->
  let t := turn (handle_document user_id lang doc) w in
  snd t = Failed IndexError /\
  Forall (fun w' => concurrent_tasks w' = concurrent_tasks w /\ tasks w' = tasks w)
         (fst t) /\
  (MAX_CONCURRENT_TASKS <= concurrent_tasks w -> fst t = []).
Proof.
  intros Ha. unfold handle_document. cbn. rewrite Ha.
  destruct (Z.leb_spec MAX_CONCURRENT_TASKS (concurrent_tasks w)) as [Hc|Hc].
  - cbn. messages. cbn. repeat split. constructor.
  - cbn. unfold makedirs_in_temp, mkdir_exist_ok. cbn.
    destruct (files w !! TEMP_DIR) as [[| |]|]; cbn; messages; cbn;
      try (repeat split; [repeat constructor|lia]).
    all: match goal with
         | |- context [?f !! OsPath.join TEMP_DIR ?n] =>
           destruct (f !! OsPath.join TEMP_DIR n) as [[| |]|]
         end; cbn; messages; cbn;
      try (repeat split; [repeat constructor|lia]).
    all: unfold append_temp_file; cbn; rewrite lookup_insert_eq; cbn; messages; cbn.
    all: repeat split; [repeat constructor|lia].
Qed.


(** X16.  [compress_callback] never starts a compression.  Whatever
    the callback data and the state, the turn that follows
    [callback.answer()] ends with an exception, creates no asyncio task,
    writes no file and leaves the counter as it found it.  Malformed data
    ends it with [ValueError], a file that is gone with [IndexError] and a
    requester without an entry with [KeyError], each before anything is
    written. *)
Theorem compress_callback_never_starts_a_task w user_id data r :
  let t := turn (resume (compress_callback user_id data) r) w in
  (exists e, snd t = Failed e) /\
  Forall (fun w' => tasks w' = tasks w /\ files w' = files w /\
                    user_languages w' = user_languages w) (fst t) /\
  concurrent_tasks (default w (last (fst t))) = concurrent_tasks w /\
  (r = Returns -> split_callback_data data = None ->
   fst t = [] /\ snd t = Failed ValueError) /\
  (r = Returns -> forall x file_path format_name,
   split_callback_data data = Some (x, file_path, format_name) ->
   (path_exists (files w) file_path = false -> fst t = [] /\ snd t = Failed IndexError) /\
   (path_exists (files w) file_path = true -> user_tasks w !! user_id = None ->
    fst t = [] /\ snd t = Failed KeyError)).
Proof.
  unfold compress_callback. cbn.
  destruct r; cbn.
  2: { split; [eauto|]. split; [constructor|]. split; [reflexivity|].
       split; intros; congruence. }
  all: destruct (split_callback_data data) as [[[x file_path] format_name]|] eqn:Hd; cbn.
  all: try (split; [eauto|]; split; [constructor|]; split; [reflexivity|];
            split; [intros; split; reflexivity|intros; congruence]).
  all: destruct (path_exists (files w) file_path) eqn:Hf; cbn; messages; cbn.
  all: try (split; [eauto|]; split; [constructor|]; split; [reflexivity|];
            split; [intros; congruence|];
            intros ? ? ? ? E; first [discriminate E|injection E as <- <- <-];
            split; intros; first [congruence|split; reflexivity]).
  all: unfold update_entry; destruct (user_tasks w !! user_id) as [d|] eqn:Hu; cbn;
    messages; cbn; messages; cbn.
  all: split; [eauto|]; split; [repeat constructor|]; split; [cbn; lia || reflexivity|].
  all: split; [intros; congruence|].
  all: intros ? ? ? ? E; first [discriminate E|injection E as <- <- <-].
  all: split; intros; first [congruence|split; reflexivity].
Qed.

(** X17.  A submission that passes both checks registers the path the
    upload is to be stored at, [TEMP_DIR/<user_id>/<file_name>] with
    [unknown_file] for a missing or empty name, creates the directories
    and then fails with [IndexError]; the entry and the directories stay
    as they are, since the clean-up of the [except] clause is not reached.
    A file name that starts with ["/"] is registered as it is, outside
    [TEMP_DIR]. *)
Theorem submission_registers_upload_path w w1 user_id lang doc :
  has_active_task w user_id = false ->
  concurrent_tasks w < MAX_CONCURRENT_TASKS ->
  makedirs_in_temp (pretty user_id) w = Ok w1 ->
  let name := match file_name doc with
              | Some n => if String.eqb n "" then "unknown_file" else n
              | None => "unknown_file"
              end in
  let path := OsPath.join (OsPath.join TEMP_DIR (pretty user_id)) name in
  let t := turn (handle_document user_id lang doc) w in
  (exists w',
     last (fst t) = Some w' /\
     user_tasks w' =
       <[user_id := {| temp_files := Some [path]; operation := None;
                       td_file_path := None; td_format := None; task := None |}]>
         (user_tasks w) /\
     files w' = files w1 /\
     concurrent_tasks w' = concurrent_tasks w /\ tasks w' = tasks w) /\
  snd t = Failed IndexError /\
  (OsPath.startswith "/" name = true -> path = name).
Proof.
  intros Ha Hc Hm name path. unfold handle_document. cbn. rewrite Ha.
  destruct (Z.leb_spec MAX_CONCURRENT_TASKS (concurrent_tasks w)); [lia|].
  cbn. fold name. unfold makedirs_in_temp in *. cbn.
  destruct (mkdir_exist_ok TEMP_DIR (files w)) as [f1|e]; [|discriminate].
  destruct (mkdir_exist_ok (OsPath.join TEMP_DIR (pretty user_id)) f1) as [f2|e] eqn:E2;
    [|discriminate].
  injection Hm as <-. cbn.
  unfold append_temp_file. cbn. rewrite lookup_insert_eq. cbn.
  messages. cbn. messages. cbn.
  fold path. split; [|split; [reflexivity|]].
  - eexists. split; [reflexivity|]. cbn. split; [apply insert_insert_eq|].
    repeat split; reflexivity.
  - intros Hs. unfold path, OsPath.join. rewrite Hs. reflexivity.
Qed.

(** The handlers other than [cmd_start] keep [user_languages] at every
    write, across their [await]s. *)
Definition speaks (L : gmap Z string) (w : World) : Prop := user_languages w = L.

Ltac spoken :=
  unfold speaks in *; cbn [user_languages with_count with_user_tasks with_files
                           with_tasks] in *;
  try assumption.

Ltac parked_spoken :=
  let r := fresh "r" in
  let w' := fresh "w'" in
  let Hw' := fresh "Hw'" in
  intros r w' Hw'; destruct r; cbn; assumption.

Lemma cmd_help_speaks L lang w :
  speaks L w -> safe (speaks L) (speaks L) (cmd_help lang) w.
Proof.
  intros Hw. unfold cmd_help. cbn. messages. cbn.
  split; [assumption|]. parked_spoken.
Qed.

Lemma cmd_cancel_speaks L user_id lang w :
  speaks L w -> safe (speaks L) (speaks L) (cmd_cancel user_id lang) w.
Proof.
  intros Hw. unfold cmd_cancel. cbn.
  destruct (user_tasks w !! user_id) as [[tf op fp fm [h|]]|]; cbn; messages; cbn.
  all: repeat split; try (spoken; fail); try parked_spoken.
Qed.

Lemma handle_document_speaks L user_id lang doc w :
  speaks L w -> safe (speaks L) (speaks L) (handle_document user_id lang doc) w.
Proof.
  intros Hw. unfold handle_document. cbn.
  destruct (has_active_task w user_id); cbn; messages; cbn.
  { split; [assumption|]. parked_spoken. }
  destruct (Z.leb_spec MAX_CONCURRENT_TASKS (concurrent_tasks w)); cbn; messages; cbn.
  { assumption. }
  split; [spoken|].
  unfold makedirs_in_temp, mkdir_exist_ok. cbn.
  destruct (files w !! TEMP_DIR) as [[| |]|]; cbn; messages; cbn; try (spoken; fail).
  all: match goal with
       | |- context [?f !! OsPath.join TEMP_DIR ?n] =>
         destruct (f !! OsPath.join TEMP_DIR n) as [[| |]|]
       end; cbn; messages; cbn; try (spoken; fail).
  all: split; [spoken|].
  all: unfold append_temp_file; cbn; rewrite lookup_insert_eq; cbn.
  all: split; [spoken|]; messages; cbn; spoken.
Qed.

Lemma compress_callback_speaks L user_id data w :
  speaks L w -> safe (speaks L) (speaks L) (compress_callback user_id data) w.
Proof.
  intros Hw. unfold compress_callback. cbn. split; [assumption|].
  intros r w' Hw'. destruct r; cbn; try assumption.
  all: destruct (split_callback_data data) as [[[x file_path] format_name]|]; cbn;
    try assumption.
  all: destruct (path_exists (files w') file_path); cbn; messages; cbn; try assumption.
  all: unfold update_entry; destruct (user_tasks w' !! user_id); cbn; try assumption.
  all: messages; cbn; messages; cbn.
  all: repeat split; spoken.
Qed.

(** X18.  Only [/start] sets the language the callbacks answer in.
    [cmd_start] records the language of the message for the requester;
    [cmd_help], [cmd_cancel], [handle_document] and [compress_callback]
    keep [user_languages] as it is at every write, across their
    [await]s. *)
Theorem only_start_sets_the_language w user_id lang doc data :
  let L := user_languages w in
  safe (speaks L) (speaks L) (cmd_help lang) w /\
  safe (speaks L) (speaks L) (cmd_cancel user_id lang) w /\
  safe (speaks L) (speaks L) (handle_document user_id lang doc) w /\
  safe (speaks L) (speaks L) (compress_callback user_id data) w /\
  exists text k,
    get_message "start" lang [] = FOk text /\
    turn (cmd_start user_id lang) w =
      ([with_languages w (<[user_id := lang]> L)], Parked (MessageAnswer text []) k).
Proof.
  intros L. assert (Hw : speaks L w) by reflexivity.
  split; [now apply cmd_help_speaks|].
  split; [now apply cmd_cancel_speaks|].
  split; [now apply handle_document_speaks|].
  split; [now apply compress_callback_speaks|].
  unfold cmd_start. cbn. unfold message.
  destruct (get_message_plain "start" lang) as [text E]. rewrite E. cbn. eauto.
Qed.


End Platform.

(** *** Runs on a concrete platform *)

(** A platform on which no upload is taken for an archive and an archive
    of [n] members has [n] bytes: values for the two functions the
    handlers are given. *)
Definition no_archive : FS -> string -> bool := fun _ _ => false.

Definition member_count : archive_kind -> list member -> Z := fun _ ms => len ms.

Definition upload : Document :=
  {| file_id := "file-1"; file_name := Some "a.txt"; file_size := Some 3 |}.

(** The requester 7 has uploaded [a.txt] and a [zip] compression of it
    runs as asyncio task 0. *)
Definition compressing_world (count : Z) : World :=
  {| concurrent_tasks := count;
     user_tasks :=
       {[ 7 := {| temp_files := Some ["temp_files/7/a.txt"];
                  operation := Some "compress";
                  td_file_path := Some "temp_files/7/a.txt";
                  td_format := Some "zip";
                  task := Some 0%nat |} ]};
     user_languages := ∅;
     files := {[ "temp_files/7/a.txt" := File [x61; x62; x63] ]};
     tasks := [{| at_owner := 7; at_path := "temp_files/7/a.txt"; at_format := "zip";
                  cancel_requested := false; at_result := None |}] |}.

(** Requester 8, who has an entry and an upload, presses a compress
    button while five operations are counted: the counter goes to 6 before
    the [finally] block brings it back. *)
Definition full_world : World :=
  {| concurrent_tasks := 5;
     user_tasks :=
       {[ 8 := {| temp_files := Some ["temp_files/8/b.txt"]; operation := None;
                  td_file_path := None; td_format := None; task := None |} ]};
     user_languages := ∅;
     files := {[ "temp_files/8/b.txt" := File [x62] ]};
     tasks := [] |}.

Lemma counter_incremented_without_limit_test_witness :
  let t := turn (resume (compress_callback member_count 8
                           "compress:temp_files/8/b.txt:zip") Returns) full_world in
  map concurrent_tasks (fst t) = [5; 5 + 1; 5] /\
  (5 = MAX_CONCURRENT_TASKS ->
   Exists (fun w' => MAX_CONCURRENT_TASKS < concurrent_tasks w') (fst t)).
Proof.
  apply (proj2 (proj2 (counter_incremented_without_limit_test no_archive member_count))
           full_world 8 "compress:temp_files/8/b.txt:zip"
           "compress" "temp_files/8/b.txt" "zip"
           {| temp_files := Some ["temp_files/8/b.txt"]; operation := None;
              td_file_path := None; td_format := None; task := None |});
    vm_compute; reflexivity.
Defined.

(** C3, where the claim fails.  Requester 7 sends [/cancel] while the
    compression runs.  In that one turn [cmd_cancel] calls [cancel()] on
    the task and deletes the upload from disk. *)
Lemma cancel_removes_upload :
  let t := turn (cmd_cancel 7 "en") (compressing_world 1) in
  files (compressing_world 1) !! "temp_files/7/a.txt" = Some (File [x61; x62; x63]) /\
  exists w',
    last (fst t) = Some w' /\
    files w' !! "temp_files/7/a.txt" = None /\
    (cancel_requested <$> tasks w' !! 0%nat) = Some true /\
    user_tasks w' !! 7 = Some empty_dict.
Proof.
  split; [vm_compute; reflexivity|].
  eexists. split; [vm_compute; reflexivity|].
  vm_compute. repeat split; reflexivity.
Qed.

Lemma cancel_deletes_listed_files_witness :
  let w := compressing_world 1 in
  let d := {| temp_files := Some ["temp_files/7/a.txt"];
              operation := Some "compress";
              td_file_path := Some "temp_files/7/a.txt";
              td_format := Some "zip";
              task := Some 0%nat |} in
  exists w' text k,
    last (fst (turn (cmd_cancel 7 "en") w)) = Some w' /\
    snd (turn (cmd_cancel 7 "en") w) = Parked (MessageAnswer text []) k /\
    tasks w' = cancel_task 0 (tasks w) /\
    user_tasks w' = <[7 := empty_dict]> (user_tasks w) /\
    concurrent_tasks w' = concurrent_tasks w /\
    forall p, files w' !! p =
              if bool_decide (p ∈ default [] (temp_files d))
              then match files w !! p with Some Dir => Some Dir | _ => None end
              else files w !! p.
Proof.
  intros w d.
  apply (cancel_deletes_listed_files w 7 "en" d 0%nat); vm_compute; reflexivity.
Defined.


(** The first submission after start-up ends with [IndexError]. *)
Lemma submission_fails_before_download_witness :
  let w := world (initial ∅) in
  let t := turn (handle_document no_archive 7 "en" upload) w in
  snd t = Failed IndexError /\
  Forall (fun w' => concurrent_tasks w' = concurrent_tasks w /\ tasks w' = tasks w)
         (fst t) /\
  (MAX_CONCURRENT_TASKS <= concurrent_tasks w -> fst t = []).
Proof.
  intros w.
  apply (submission_fails_before_download no_archive w 7 "en" upload).
  vm_compute. reflexivity.
Defined.


(** The first submission after start-up, at the path it registers. *)
Lemma submission_registers_upload_path_witness :
  let w := world (initial ∅) in
  let w1 := with_files w (<[OsPath.join TEMP_DIR (pretty 7) := Dir]>
                            (<[TEMP_DIR := Dir]> (files w))) in
  let name := match file_name upload with
              | Some n => if String.eqb n "" then "unknown_file" else n
              | None => "unknown_file"
              end in
  let path := OsPath.join (OsPath.join TEMP_DIR (pretty 7)) name in
  let t := turn (handle_document no_archive 7 "en" upload) w in
  (exists w',
     last (fst t) = Some w' /\
     user_tasks w' =
       <[7 := {| temp_files := Some [path]; operation := None;
                 td_file_path := None; td_format := None; task := None |}]>
         (user_tasks w) /\
     files w' = files w1 /\
     concurrent_tasks w' = concurrent_tasks w /\ tasks w' = tasks w) /\
  snd t = Failed IndexError /\
  (OsPath.startswith "/" name = true -> path = name).
Proof.
  intros w w1.
  apply (submission_registers_upload_path no_archive w w1 7 "en" upload);
    vm_compute; reflexivity.
Defined.


End Handlers.
